(** * forcecrc: crc32.py, checksum and 4-byte patcher

    A shallow embedding of [crc32.py]: the streaming checksum [crc32], the
    argument validator [hex_string_32bit], and the dispatcher [do_main],
    together with the small part of the Python runtime they call
    ([zlib.crc32], [int], [int.to_bytes], [random.randint], binary file
    objects, [print]).

    Conventions.
    - Python [int] is [Z]; [bytes] is [list byte]; [str] is [string]
      (one Rocq character per Python character, so only 8-bit characters
      are covered).
    - The file system is a finite map from names to contents.
    - Effects are threaded through a state-and-exception monad [M] over a
      [world]: file system, the writes issued on the output streams, the
      random source, and a log of file operations.
    - The interpreter is taken to be CPython 3.11 or later: the source
      calls [int.to_bytes] without a byte order, which defaults to big
      endian from that version on. *)

From Stdlib Require Import ZArith String Ascii Strings.Byte.
From Stdlib Require Import DecimalString HexadecimalString Lia.
From Stdlib Require Import HexadecimalN HexadecimalPos HexadecimalFacts.
From stdpp Require Import gmap strings list.
From Equations Require Import Equations.

Local Open Scope Z_scope.

(** ** Bytes *)

Definition byte_Z (b : byte) : Z := Z.of_N (Byte.to_N b).

Definition Z_byte (z : Z) : byte :=
  match Byte.of_N (Z.to_N (Z.land z 255)) with
  | Some b => b
  | None => x00
  end.

(** ** zlib.crc32

    The table-driven update of zlib's [crc32.c]: the table is the one
    [make_crc_table] builds from the reflected polynomial, a byte is folded
    in as [crc_table[(crc ^ b) & 0xff] ^ (crc >> 8)], and the running value
    is complemented on the way in and on the way out. The Python binding
    reads [value] as an unsigned 32-bit integer. *)

Module Zlib.

Definition POLY : Z := 0xedb88320.

Definition MASK32 : Z := 0xffffffff.

(** One round of [make_crc_table]: [c = c & 1 ? POLY ^ (c >> 1) : c >> 1]. *)
Definition crc_shift (c : Z) : Z :=
  if Z.testbit c 0 then Z.lxor POLY (Z.shiftr c 1) else Z.shiftr c 1.

Definition make_crc_entry (n : Z) : Z := Nat.iter 8 crc_shift n.

Definition crc_table : list Z :=
  Eval vm_compute in List.map (fun n => make_crc_entry (Z.of_nat n)) (seq 0 256).

Definition crc_byte (c : Z) (b : byte) : Z :=
  Z.lxor (nth (Z.to_nat (Z.land (Z.lxor c (byte_Z b)) 255)) crc_table 0)
         (Z.shiftr c 8).

Definition crc32 (data : list byte) (value : Z) : Z :=
  Z.lxor (fold_left crc_byte data (Z.lxor (Z.land value MASK32) MASK32)) MASK32.

End Zlib.

(** ** The standard CRC-32, as the specification words it

    IEEE 802.3 CRC-32 in its reflected form: start from all ones, for each
    byte xor it into the low bits and divide bit by bit by the reflected
    polynomial 0xEDB88320, complement at the end. This is the reference the
    checksum of a file is compared with; it is computed over the whole
    contents at once. *)

Module Standard.

Definition divide_bit (c : Z) : Z :=
  if Z.odd c then Z.lxor (Z.shiftr c 1) 0xEDB88320 else Z.shiftr c 1.

Definition divide_byte (c : Z) (b : byte) : Z :=
  Nat.iter 8 divide_bit (Z.lxor c (byte_Z b)).

Definition crc32 (data : list byte) : Z :=
  Z.lxor (fold_left divide_byte data 0xFFFFFFFF) 0xFFFFFFFF.

End Standard.

(** ** Exceptions *)

Inductive exn : Type :=
| ValueError
| OverflowError
| FileNotFoundError
| OSError_EINVAL
| UnsupportedOperation
| SystemExit (code : Z).

Inductive result (A : Type) : Type :=
| Ok (a : A)
| Raise (e : exn).

Arguments Ok {A} a.
Arguments Raise {A} e.

(** ** The world a run acts on *)

Inductive open_mode : Type :=
| ModeRB    (* "rb" *)
| ModeRWB.  (* "r+b" *)

Inductive whence : Type :=
| SEEK_SET
| SEEK_END.

(** What a run does to files, in program order. *)
Inductive file_event : Type :=
| EvOpen (name : string) (mode : open_mode)
| EvRead (name : string) (pos : nat) (count : nat)
| EvSeek (name : string) (pos : nat)
| EvWrite (name : string) (pos : nat) (data : list byte)
| EvClose (name : string).

(** A write issued on an output stream: text through the stream itself
    ([print]) or bytes through its [buffer]. The items are kept in the
    order the program issues them. *)
Inductive out_item : Type :=
| OutText (s : string)
| OutBytes (b : list byte).

(** Standard error is part of the world although no statement of the
    program writes to it; what the interpreter and argparse print there on
    an error is not modelled. *)
Record world : Type := World {
  w_fs : gmap string (list byte);
  w_stdout : list out_item;
  w_stderr : list out_item;
  w_random : nat -> Z;      (* the raw draws the random source will give *)
  w_drawn : nat;            (* how many have been taken *)
  w_log : list file_event
}.

Definition set_fs (fs : gmap string (list byte)) (w : world) : world :=
  World fs (w_stdout w) (w_stderr w) (w_random w) (w_drawn w) (w_log w).

Definition log_event (e : file_event) (w : world) : world :=
  World (w_fs w) (w_stdout w) (w_stderr w) (w_random w) (w_drawn w) (w_log w ++ [e]).

Definition add_log (evs : list file_event) (w : world) : world :=
  World (w_fs w) (w_stdout w) (w_stderr w) (w_random w) (w_drawn w) (w_log w ++ evs).

Definition read_event (e : file_event) : bool :=
  match e with
  | EvRead _ _ _ => true
  | _ => false
  end.

(** The file operations only the patch performs: opening for update,
    seeking, writing. *)
Definition patch_event (e : file_event) : bool :=
  match e with
  | EvOpen _ ModeRWB | EvSeek _ _ | EvWrite _ _ _ => true
  | _ => false
  end.

Definition emit_stdout (o : out_item) (w : world) : world :=
  World (w_fs w) (w_stdout w ++ [o]) (w_stderr w) (w_random w) (w_drawn w) (w_log w).

Definition next_draw (w : world) : world :=
  World (w_fs w) (w_stdout w) (w_stderr w) (w_random w) (S (w_drawn w)) (w_log w).

(** ** State and exception monad *)

Definition M (A : Type) : Type := world -> result A * world.

Definition ret {A} (a : A) : M A := fun w => (Ok a, w).

Definition raise {A} (e : exn) : M A := fun w => (Raise e, w).

Definition bind {A B} (m : M A) (k : A -> M B) : M B :=
  fun w =>
    match m w with
    | (Ok a, w') => k a w'
    | (Raise e, w') => (Raise e, w')
    end.

Definition lift {A} (r : result A) : M A := fun w => (r, w).

Notation "x <- c ;; k" := (bind c (fun x => k))
  (at level 20, c at level 99, k at level 200, only parsing).

(** The outcome and the final world of a run. *)
Definition outcome {A} (m : M A) (w : world) : result A := fst (m w).

Definition exec {A} (m : M A) (w : world) : world := snd (m w).

(** ** Python values and built-ins *)

(** Truth value of an optional integer: [None] and [0] are false. *)
Definition truthy (v : option Z) : bool :=
  match v with
  | Some n => negb (n =? 0)
  | None => false
  end.

(** [int.to_bytes(length, byteorder="big", signed=False)]. *)
Fixpoint big_endian (length : nat) (n : Z) : list byte :=
  match length with
  | O => []
  | S k => Z_byte (Z.shiftr n (8 * Z.of_nat k)) :: big_endian k n
  end.

Definition to_bytes (n : Z) (length : nat) : result (list byte) :=
  if n <? 0 then Raise OverflowError
  else if 256 ^ Z.of_nat length <=? n then Raise OverflowError
  else Ok (big_endian length n).

(** [format(n, "08x")]: lower-case hexadecimal, zero-padded to width 8,
    the sign counted in the width. *)
Definition hex_digits (n : Z) : string :=
  HexadecimalString.NilZero.string_of_uint (N.to_hex_uint (Z.to_N n)).

Definition zfill (width : nat) (s : string) : string :=
  String.concat "" (replicate (width - String.length s) "0"%string) +:+ s.

Definition format_08x (n : Z) : string :=
  if n <? 0 then "-" +:+ zfill 7 (hex_digits (- n)) else zfill 8 (hex_digits n).

(** [str(n)]. *)
Definition str_int (n : Z) : string :=
  DecimalString.NilZero.string_of_int (Z.to_int n).

(** *** int(s, base), after CPython's [PyLong_FromString] *)

(** The white space [int] strips: TAB to CR, space, and in Latin-1 NEL
    and NBSP. *)
Definition isspace (c : ascii) : bool :=
  let n := N_of_ascii c in
  ((9 <=? n) && (n <=? 13) || (n =? 32) || (n =? 133) || (n =? 160))%N.

Definition digit_value (c : ascii) : option Z :=
  let n := Z.of_N (N_of_ascii c) in
  if (48 <=? n) && (n <=? 57) then Some (n - 48)
  else if (97 <=? n) && (n <=? 122) then Some (n - 97 + 10)
  else if (65 <=? n) && (n <=? 90) then Some (n - 65 + 10)
  else None.

Fixpoint skip_spaces (l : list ascii) : list ascii :=
  match l with
  | c :: l' => if isspace c then skip_spaces l' else l
  | [] => []
  end.

(** Digits with single underscores between them; gives the value, the
    number of digits and what follows, or [None] on a doubled or trailing
    underscore. *)
Fixpoint scan_digits (base : Z) (prev_underscore : bool) (acc : Z)
    (digits : nat) (l : list ascii) : option (Z * nat * list ascii) :=
  let stop := if prev_underscore then None else Some (acc, digits, l) in
  match l with
  | [] => stop
  | c :: l' =>
      if Ascii.eqb c "_" then
        if prev_underscore then None else scan_digits base true acc digits l'
      else
        match digit_value c with
        | Some d =>
            if d <? base
            then scan_digits base false (acc * base + d) (S digits) l'
            else stop
        | None => stop
        end
  end.

Definition int_max_str_digits : nat := 4300.

Definition parse_int (s : string) (base : Z) : option Z :=
  let l := skip_spaces (list_ascii_of_string s) in
  let '(negative, l) :=
    match l with
    | "+"%char :: r => (false, r)
    | "-"%char :: r => (true, r)
    | _ => (false, l)
    end in
  let l :=
    if base =? 16 then
      match l with
      | "0"%char :: "x"%char :: r | "0"%char :: "X"%char :: r =>
          match r with "_"%char :: r' => r' | _ => r end
      | _ => l
      end
    else l in
  match l with
  | "_"%char :: _ => None
  | _ =>
      match scan_digits base false 0 0 l with
      | None => None
      | Some (v, digits, rest) =>
          if Nat.eqb digits 0 then None
          else if (base =? 10) && Nat.ltb int_max_str_digits digits then None
          else
            match skip_spaces rest with
            | [] => Some (if negative then - v else v)
            | _ :: _ => None
            end
      end
  end.

(** [int(s, base)] raises [ValueError] on every string it does not accept. *)
Definition py_int (s : string) (base : Z) : result Z :=
  match parse_int s base with
  | Some v => Ok v
  | None => Raise ValueError
  end.

(** *** random.randint *)

(** [Random._randbelow(n)]: some value in [0, n), here the next raw draw
    reduced modulo [n]. *)
Definition randbelow (n : Z) : M Z :=
  fun w => (Ok (w_random w (w_drawn w) mod n), next_draw w).

(** [randint(a, b)] is [randrange(a, b + 1)]. *)
Definition randint (a b : Z) : M Z :=
  let width := b + 1 - a in
  if 0 <? width then k <- randbelow width ;; ret (a + k)
  else raise ValueError.

(** *** Binary file objects *)

Record file_obj : Type := FileObj {
  f_name : string;
  f_mode : open_mode;
  f_pos : nat
}.

Definition set_pos (p : nat) (f : file_obj) : file_obj :=
  FileObj (f_name f) (f_mode f) p.

(** Both modes need the file to exist; neither truncates it. *)
Definition open_ (name : string) (mode : open_mode) : M file_obj :=
  fun w =>
    match w_fs w !! name with
    | Some _ => (Ok (FileObj name mode 0%nat), log_event (EvOpen name mode) w)
    | None => (Raise FileNotFoundError, w)
    end.

Definition close (f : file_obj) : M unit :=
  fun w => (Ok tt, log_event (EvClose (f_name f)) w).

(** [f.read(n)] on a buffered binary file: up to [n] bytes from the
    current position, everything that is left when [n] is -1; a length
    below -1 is refused with [ValueError] ("read length must be
    non-negative or -1") before anything is read. *)
Definition read (f : file_obj) (n : Z) : M (list byte * file_obj) :=
  fun w =>
    if n <? -1 then (Raise ValueError, w)
    else
      match w_fs w !! f_name f with
      | Some data =>
          let rest := drop (f_pos f) data in
          let chunk := if n =? -1 then rest else take (Z.to_nat n) rest in
          (Ok (chunk, set_pos (f_pos f + length chunk)%nat f),
           log_event (EvRead (f_name f) (f_pos f) (length chunk)) w)
      | None => (Raise OSError_EINVAL, w)
      end.

(** [f.seek(offset, whence)]: a position before the start of the file is
    refused. *)
Definition seek (f : file_obj) (offset : Z) (wh : whence) : M file_obj :=
  fun w =>
    match w_fs w !! f_name f with
    | Some data =>
        let target :=
          match wh with
          | SEEK_SET => offset
          | SEEK_END => Z.of_nat (length data) + offset
          end in
        if target <? 0 then (Raise OSError_EINVAL, w)
        else (Ok (set_pos (Z.to_nat target) f),
              log_event (EvSeek (f_name f) (Z.to_nat target)) w)
    | None => (Raise OSError_EINVAL, w)
    end.

(** The first [pos] bytes of a file once something is written at [pos]:
    what was there, then zeros if [pos] is past the old end. *)
Definition padded_prefix (old : list byte) (pos : nat) : list byte :=
  take pos old ++ replicate (pos - length old) x00.

(** Contents after writing [data] at [pos]: the bytes before and after
    the written range are kept, and the file grows when the range ends
    past its old end. *)
Definition write_at (old : list byte) (pos : nat) (data : list byte) : list byte :=
  padded_prefix old pos ++ data ++ drop (pos + length data) old.

Definition write (f : file_obj) (data : list byte) : M file_obj :=
  fun w =>
    match f_mode f with
    | ModeRB => (Raise UnsupportedOperation, w)
    | ModeRWB =>
        match w_fs w !! f_name f with
        | Some old =>
            (Ok (set_pos (f_pos f + length data)%nat f),
             log_event (EvWrite (f_name f) (f_pos f) data)
               (set_fs (<[f_name f := write_at old (f_pos f) data]> (w_fs w)) w))
        | None => (Raise OSError_EINVAL, w)
        end
    end.

(** [with open(name, mode) as f: body]: the file is closed on the way out,
    also when [body] raises. *)
Definition with_open {A} (name : string) (mode : open_mode)
    (body : file_obj -> M A) : M A :=
  fun w =>
    match open_ name mode w with
    | (Ok f, w1) =>
        let '(r, w2) := body f w1 in
        (r, snd (close f w2))
    | (Raise e, w1) => (Raise e, w1)
    end.

(** *** Output *)

Definition newline : string := String (ascii_of_nat 10) EmptyString.

(** [print(s)]: the text and a newline, on standard output. *)
Definition print (s : string) : M unit :=
  fun w => (Ok tt, emit_stdout (OutText (s +:+ newline)) w).

(** [sys.stdout.buffer.write(b)]. *)
Definition stdout_buffer_write (b : list byte) : M unit :=
  fun w => (Ok tt, emit_stdout (OutBytes b) w).

(** *** Standard output, as the stream receives it

    [sys.stdout] is a text layer ([io.TextIOWrapper]) on top of the byte
    buffer [sys.stdout.buffer]. The text layer holds what it is given
    until it hands it down to the buffer. It does so at the end of a write
    that asks for it (on a terminal the stream is line buffered and a
    write with a line end in it asks; when the interpreter runs unbuffered
    every write asks), at the end of a write after which it holds
    [chunk_size] bytes or more, at the start of a write with which it
    would hold more than [chunk_size] bytes, and when the interpreter
    exits. Bytes written to the buffer directly do not wait for the text
    layer, and the buffer passes on what it receives in the order it
    receives it. Text is encoded one byte per character and a line end is
    written as it is (POSIX). *)

Inductive stdout_mode : Type :=
| LineBuffered    (* a terminal *)
| WriteThrough    (* python -u, PYTHONUNBUFFERED *)
| BlockBuffered.  (* a pipe or a file *)

Definition chunk_size : Z := 8192.

Record text_layer : Type := TextLayer {
  t_below : list byte;     (* what the byte buffer has received *)
  t_pending : list byte    (* what the text layer holds *)
}.

Definition flush_pending (t : text_layer) : text_layer :=
  TextLayer (t_below t ++ t_pending t) [].

Definition has_line_end (b : list byte) : bool :=
  existsb (fun c => Byte.eqb c x0a || Byte.eqb c x0d) b.

(** [TextIOWrapper.write], on the encoded text. *)
Definition text_write (mode : stdout_mode) (b : list byte) (t : text_layer)
  : text_layer :=
  let t :=
    if chunk_size <? Z.of_nat (length (t_pending t) + length b)
    then TextLayer (t_below t ++ t_pending t) b
    else TextLayer (t_below t) (t_pending t ++ b) in
  let needflush :=
    match mode with
    | LineBuffered => has_line_end b
    | WriteThrough => true
    | BlockBuffered => false
    end in
  if (chunk_size <=? Z.of_nat (length (t_pending t))) || needflush
  then flush_pending t
  else t.

(** [sys.stdout.buffer.write]. *)
Definition buffer_write (b : list byte) (t : text_layer) : text_layer :=
  TextLayer (t_below t ++ b) (t_pending t).

(** The bytes of one item. *)
Definition item_bytes (o : out_item) : list byte :=
  match o with
  | OutText s => list_byte_of_string s
  | OutBytes b => b
  end.

(** One item of [w_stdout] reaching the layers. An [OutText] is the line
    of one [print], which writes the text and then the line end, its last
    character, in two writes. *)
Definition issue (mode : stdout_mode) (t : text_layer) (o : out_item)
  : text_layer :=
  match o with
  | OutText line =>
      let b := list_byte_of_string line in
      let n := (length b - 1)%nat in
      text_write mode (drop n b) (text_write mode (take n b) t)
  | OutBytes b => buffer_write b t
  end.

(** What the stream has received when the interpreter has exited, from a
    process that issued [items] on a standard output of the given kind. *)
Definition stdout_stream (mode : stdout_mode) (items : list out_item)
  : list byte :=
  t_below (flush_pending (fold_left (issue mode) items (TextLayer [] []))).

(** * The program *)

(** ** crc32 (lines 40-46) *)

(** Keeps the equation [x = y] when matching on [x]. *)
Definition inspect {A : Type} (x : A) : {y : A | x = y} := exist _ x eq_refl.

(** Bytes of the file not yet read through [f]. *)
Definition remaining (f : file_obj) (w : world) : nat :=
  match w_fs w !! f_name f with
  | Some data => (length data - f_pos f)%nat
  | None => 0%nat
  end.

(** [while (chunk := f.read(chunksize)): checksum = zlib.crc32(chunk, checksum)],
    then [return checksum]. The loop ends at the first empty chunk; each
    non-empty chunk leaves fewer bytes to read. *)
Equations? crc32_loop (chunksize : Z) (f : file_obj) (checksum : Z) (w : world)
  : result Z * world by wf (remaining f w) lt :=
  crc32_loop chunksize f checksum w with inspect (read f chunksize w) := {
    | exist _ (Raise e, w') _ => (Raise e, w');
    | exist _ (Ok ([], _), w') _ => (Ok checksum, w');
    | exist _ (Ok (b :: chunk, f'), w') Hread =>
        crc32_loop chunksize f' (Zlib.crc32 (b :: chunk) checksum) w' }.
Proof.
  unfold read in Hread. unfold remaining.
  destruct (chunksize <? -1); [discriminate|].
  destruct (w_fs w !! f_name f) as [data|] eqn:Hdata; [|discriminate].
  injection Hread as Hchunk Hf Hw.
  assert (Hlen : (length (b :: chunk) <= length data - f_pos f)%nat).
  { rewrite <- Hchunk. destruct (chunksize =? -1).
    - rewrite length_drop. lia.
    - rewrite length_take, length_drop. lia. }
  rewrite Hchunk in Hf. subst f' w'. simpl in *. rewrite Hdata. lia.
Qed.

Definition crc32 (filename : string) (chunksize : Z) : M Z :=
  with_open filename ModeRB (fun f => crc32_loop chunksize f 0).

(** ** hex_string_32bit (lines 48-51) *)

Definition hex_string_32bit (s : string) : result Z :=
  if Nat.ltb 8 (String.length s) then Raise ValueError
  else py_int s 16.

(** ** The argument parser (lines 53-60) *)

(** The namespace [parse_args] returns, one field per [add_argument], in
    the order of the source. Options that were not given are [None]. *)
Module Opts.

Record t : Type := mk {
  filename : string;
  binary : bool;
  check : bool;
  index_random : option Z;
  verbose : bool;
  insert : option Z;
  position : option Z
}.

Definition set_position (p : option Z) (o : t) : t :=
  mk (filename o) (binary o) (check o) (index_random o) (verbose o) (insert o) p.

Definition set_insert (v : option Z) (o : t) : t :=
  mk (filename o) (binary o) (check o) (index_random o) (verbose o) v (position o).

Definition set_verbose (b : bool) (o : t) : t :=
  mk (filename o) (binary o) (check o) (index_random o) b (insert o) (position o).

End Opts.

(** The command line as argparse has split it: for each flag whether it
    is there, for each option the string that was given with it. *)
Record cmdline : Type := Cmdline {
  c_filename : string;
  c_binary : bool;
  c_check : bool;
  c_index_random : option string;
  c_verbose : bool;
  c_insert : option string;
  c_position : option string
}.

(** argparse applies an option's [type] to its string; a [ValueError]
    from it becomes a usage error, which exits with status 2. *)
Definition convert {A} (type_func : string -> result A) (arg : option string)
  : result (option A) :=
  match arg with
  | None => Ok None
  | Some s =>
      match type_func s with
      | Ok v => Ok (Some v)
      | Raise ValueError => Raise (SystemExit 2)
      | Raise e => Raise e
      end
  end.

Definition parse_args (c : cmdline) : M Opts.t :=
  index_random <- lift (convert (fun s => py_int s 10) (c_index_random c)) ;;
  insert <- lift (convert hex_string_32bit (c_insert c)) ;;
  position <- lift (convert (fun s => py_int s 10) (c_position c)) ;;
  ret (Opts.mk (c_filename c) (c_binary c) (c_check c) index_random
               (c_verbose c) insert position).

(** ** do_main (lines 62-89) *)

Definition check_message (filename : string) (answer : Z) : string :=
  "CRC32 of " +:+ filename +:+ " is: " +:+ format_08x answer.

Definition wrote_message (value : Z) (filename : string) (position : Z) : string :=
  "Wrote target selected CRC32 of " +:+ format_08x value +:+ " to " +:+ filename
    +:+ " at position: " +:+ str_int position.

(** The patch itself, lines 79-88: the body of the last [if] of [do_main],
    which the source does not name. *)
Definition patch_file (filename : string) (verbose : bool) (value position : Z)
  : M unit :=
  with_open filename ModeRWB (fun f =>
    f <- (if 0 <=? position
          then seek f position SEEK_SET
          else seek f position SEEK_END) ;;
    data <- lift (to_bytes value 4) ;;
    f <- write f data ;;
    _ <- (if verbose
          then print (wrote_message value filename position)
          else ret tt) ;;
    print (format_08x value)).

Definition do_main (opts : Opts.t) : M unit :=
  if Opts.check opts then
    answer <- crc32 (Opts.filename opts) 65536 ;;
    _ <- (if Opts.verbose opts
          then print (check_message (Opts.filename opts) answer)
          else ret tt) ;;
    if Opts.binary opts
    then data <- lift (to_bytes answer 4) ;; stdout_buffer_write data
    else print (format_08x answer)
  else
    opts <- (if truthy (Opts.index_random opts)
             then
               value <- randint 1 (2 ^ 32 - 1) ;;
               ret (Opts.set_insert (Some value)
                      (Opts.set_position (Opts.index_random opts) opts))
             else ret opts) ;;
    (* [if opts.insert and opts.position]: both given and both non-zero *)
    match Opts.insert opts, Opts.position opts with
    | Some value, Some position =>
        if truthy (Some value) && truthy (Some position)
        then patch_file (Opts.filename opts) (Opts.verbose opts) value position
        else ret tt
    | _, _ => ret tt
    end.

(** ** The script's last two lines (91-92) *)

Definition main (c : cmdline) : M unit :=
  opts <- parse_args c ;;
  do_main opts.

(** ** Worlds and inputs used in the examples *)

Definition zeros (n : nat) : list byte := replicate n x00.

Definition world_of (fs : gmap string (list byte)) (draws : nat -> Z) : world :=
  World fs [] [] draws 0 [].

Definition test_zero_bin : string := "test-zero.bin".

Definition w_zero16 : world :=
  world_of {[ test_zero_bin := zeros 16 ]} (fun _ => 0).

Definition w_empty_file : world :=
  world_of {[ test_zero_bin := [] ]} (fun _ => 0).

(** [crc32.py --insert <value> --position <position> test-zero.bin],
    after parsing. *)
Definition insert_opts (value position : Z) : Opts.t :=
  Opts.mk test_zero_bin false false None false (Some value) (Some position).

(** [crc32.py --insert-random-at <n> test-zero.bin], after parsing. *)
Definition random_opts (n : Z) : Opts.t :=
  Opts.mk test_zero_bin false false (Some n) false None None.

(** [crc32.py -c test-zero.bin], with [-v] when [verbose]. *)
Definition check_opts (verbose : bool) : Opts.t :=
  Opts.mk test_zero_bin false true None verbose None None.

(** [crc32.py -c -r test-zero.bin], with [-v] when [verbose]. *)
Definition check_raw_opts (verbose : bool) : Opts.t :=
  Opts.mk test_zero_bin true true None verbose None None.

(** [crc32.py -c --insert cafecafe --position -8 test-zero.bin], after
    parsing. *)
Definition check_with_insert_opts : Opts.t :=
  Opts.mk test_zero_bin false true None false (Some 0xCAFECAFE) (Some (-8)).

(** The world after [crc32.py --insert cafecafe --position -1
    test-zero.bin], and after the same command once more. *)
Definition patched_once : world :=
  exec (do_main (insert_opts 0xCAFECAFE (-1))) w_zero16.

Definition patched_twice : world :=
  exec (do_main (insert_opts 0xCAFECAFE (-1))) patched_once.

(** The contents of the file called [name], if there is one. *)
Definition contents (name : string) (w : world) : option (list byte) :=
  w_fs w !! name.

(** [n] bytes of [data] from offset [pos] on. *)
Definition read_at (data : list byte) (pos n : nat) : list byte :=
  take n (drop pos data).

(** The offset a signed position resolves to in a file of [len] bytes, as
    the specification words it: the position itself when it is not
    negative, the length plus the position otherwise. *)
Definition resolve (position : Z) (len : nat) : Z :=
  if 0 <=? position then position else Z.of_nat len + position.

(** The unsigned integer a byte string encodes, most significant byte
    first: [int.from_bytes(data, "big")]. *)
Definition from_bytes (data : list byte) : Z :=
  fold_left (fun acc b => acc * 256 + byte_Z b) data 0.

(** [crc32.py --insert <value> --position <position> test-zero.bin], as
    given on the command line. *)
Definition insert_cmdline (value position : string) : cmdline :=
  Cmdline test_zero_bin false false None false (Some value) (Some position).

(** [crc32.py --insert-random-at <n> test-zero.bin], as given on the
    command line. *)
Definition random_cmdline (n : string) : cmdline :=
  Cmdline test_zero_bin false false (Some n) false None None.

(** Two runs from [w], one with [--verbose] and one without, that differ
    only in a diagnostic printed on standard output: same outcome, same
    files, same file operations, nothing on standard error; either nothing
    is written to standard output at all, or the terse output is one write
    (bytes written to the buffer when [raw], the line of a [print]
    otherwise) and the diagnostic is the line of one [print] issued before
    it. The items are in the order of the calls; the order their bytes
    have on the stream is [stdout_stream]'s matter. *)
Definition differ_by_diagnostic (raw : bool) (w : world)
    (verbose_run terse_run : result unit * world) : Prop :=
  fst verbose_run = fst terse_run
  /\ w_fs (snd verbose_run) = w_fs (snd terse_run)
  /\ w_log (snd verbose_run) = w_log (snd terse_run)
  /\ w_stderr (snd verbose_run) = w_stderr w
  /\ w_stderr (snd terse_run) = w_stderr w
  /\ exists diag terse,
       (diag = [] /\ terse = []
        \/ exists line out,
             diag = [OutText (line +:+ newline)] /\ terse = [out]
             /\ if raw
                then exists b, out = OutBytes b
                else exists value, out = OutText (value +:+ newline))
       /\ w_stdout (snd terse_run) = w_stdout w ++ terse
       /\ w_stdout (snd verbose_run) = w_stdout w ++ diag ++ terse.

(** ** What the dispatcher decides, and what a run logs *)

(** The value and the position [--insert] and [--position] select: both
    given and both truthy. *)
Definition explicit_patch (opts : Opts.t) : option (Z * Z) :=
  match Opts.insert opts, Opts.position opts with
  | Some v, Some p =>
      if truthy (Some v) && truthy (Some p) then Some (v, p) else None
  | _, _ => None
  end.

(** Whether the options select a patch, and whether they select anything. *)
Definition patch_selected (opts : Opts.t) : bool :=
  truthy (Opts.index_random opts)
  || (truthy (Opts.insert opts) && truthy (Opts.position opts)).

Definition mode_selected (opts : Opts.t) : bool :=
  Opts.check opts || patch_selected opts.

(** [evs] are reads of the file [name], one after the other from [pos] on,
    none of more than [bound] bytes; the result is where they end. *)
Fixpoint reads_from (name : string) (pos bound : nat) (evs : list file_event)
  : option nat :=
  match evs with
  | [] => Some pos
  | EvRead n p count :: evs' =>
      if String.eqb n name && Nat.eqb p pos && Nat.leb count bound
      then reads_from name (pos + count) bound evs'
      else None
  | _ => None
  end.

Definition open_or_close (e : file_event) : bool :=
  match e with
  | EvOpen _ _ | EvClose _ => true
  | _ => false
  end.

(** The file an event is on. *)
Definition event_name (e : file_event) : string :=
  match e with
  | EvOpen n _ | EvRead n _ _ | EvSeek n _ | EvWrite n _ _ | EvClose n => n
  end.

(** The events of a run that either touches no file, or opens [name] once,
    works on it and on no other file, and closes it last. *)
Definition bracketed (name : string) (evs : list file_event) : Prop :=
  evs = []
  \/ exists mode body,
       evs = EvOpen name mode :: body ++ [EvClose name]
       /\ forallb (fun e => negb (open_or_close e)
                            && String.eqb (event_name e) name) body = true.

(** A world without any file. *)
Definition w_no_file : world := world_of ∅ (fun _ => 0).

(** ** Digits, and the stages of [parse_int], named for the proofs *)

(** A lower-case hexadecimal digit, as [format] writes them. *)
Definition hex_char (c : ascii) : bool :=
  existsb (Ascii.eqb c) (list_ascii_of_string "0123456789abcdef").

(** The number a run of digits denotes in base 16, read from the left on
    top of [acc]. *)
Definition hex_value (acc : Z) (l : list ascii) : Z :=
  fold_left (fun a c => a * 16 + match digit_value c with Some d => d | None => 0 end) l acc.

(** The characters of a hexadecimal numeral. *)
Definition uint_chars (d : Hexadecimal.uint) : list ascii :=
  list_ascii_of_string (NilEmpty.string_of_uint d).

(** The sign, the base prefix and the test on a leading underscore of
    [parse_int], under names of their own: [parse_int] is these stages one
    after the other ([parse_int_stages]). *)
Definition strip_sign (l : list ascii) : bool * list ascii :=
  match l with
  | "+"%char :: r => (false, r)
  | "-"%char :: r => (true, r)
  | _ => (false, l)
  end.

Definition strip_prefix (base : Z) (l : list ascii) : list ascii :=
  if base =? 16 then
    match l with
    | "0"%char :: "x"%char :: r | "0"%char :: "X"%char :: r =>
        match r with "_"%char :: r' => r' | _ => r end
    | _ => l
    end
  else l.

Definition reject_underscore {A} (l : list ascii) (x : option A) : option A :=
  match l with
  | "_"%char :: _ => None
  | _ => x
  end.

(** An option value that its [type] refuses: [--insert-random-at] or
    [--position] with a string [int] does not accept, [--insert] with one
    [hex_string_32bit] does not accept. *)
Definition malformed (c : cmdline) : Prop :=
  (exists s, c_index_random c = Some s /\ py_int s 10 = Raise ValueError)
  \/ (exists s, c_insert c = Some s /\ hex_string_32bit s = Raise ValueError)
  \/ (exists s, c_position c = Some s /\ py_int s 10 = Raise ValueError).

(** The word a run of bytes makes, first byte lowest: how the bytes lie
    over the running checksum when they are folded in. *)
Definition le_word (l : list byte) : Z :=
  fold_right (fun b acc => Z.lxor (byte_Z b) (Z.shiftl acc 8)) 0 l.

(** * Proofs *)

(** ** The checksum arithmetic *)

Section CrcArith.

Import Zlib.

Lemma byte_Z_range b : 0 <= byte_Z b < 256.
Proof.
  unfold byte_Z. pose proof (Byte.to_N_bounded b). lia.
Qed.

Lemma lxor_range32 a b :
  0 <= a < 2 ^ 32 -> 0 <= b < 2 ^ 32 -> 0 <= Z.lxor a b < 2 ^ 32.
Proof.
  intros Ha Hb.
  assert (Hnn : 0 <= Z.lxor a b) by (apply Z.lxor_nonneg; lia).
  split; [exact Hnn|].
  destruct (Z.eq_dec (Z.lxor a b) 0) as [->|Hne]; [lia|].
  apply Z.log2_lt_pow2; [lia|].
  pose proof (Z.log2_lxor a b ltac:(lia) ltac:(lia)) as Hl.
  assert (Z.log2 a < 32).
  { destruct (Z.eq_dec a 0) as [->|]; [simpl; lia|].
    apply Z.log2_lt_pow2; lia. }
  assert (Z.log2 b < 32).
  { destruct (Z.eq_dec b 0) as [->|]; [simpl; lia|].
    apply Z.log2_lt_pow2; lia. }
  lia.
Qed.

Lemma shiftr_range32 a n : 0 <= n -> 0 <= a < 2 ^ 32 -> 0 <= Z.shiftr a n < 2 ^ 32.
Proof.
  intros Hn Ha. rewrite Z.shiftr_div_pow2 by lia.
  assert (0 < 2 ^ n) by (apply Z.pow_pos_nonneg; lia).
  split; [apply Z.div_pos; lia|].
  apply Z.le_lt_trans with a; [|lia].
  apply Z.div_le_upper_bound; [lia|]. nia.
Qed.

Lemma land_mask32 a : 0 <= a < 2 ^ 32 -> Z.land a MASK32 = a.
Proof.
  intros Ha. change MASK32 with (Z.ones 32).
  rewrite Z.land_ones by lia. apply Z.mod_small. lia.
Qed.

Lemma land_mask32_range a : 0 <= Z.land a MASK32 < 2 ^ 32.
Proof.
  change MASK32 with (Z.ones 32). rewrite Z.land_ones by lia.
  apply Z.mod_pos_bound. lia.
Qed.

Lemma lxor_twice a m : Z.lxor (Z.lxor a m) m = a.
Proof.
  rewrite Z.lxor_assoc, Z.lxor_nilpotent. apply Z.lxor_0_r.
Qed.

Lemma crc_table_lookup i :
  0 <= i < 256 -> nth (Z.to_nat i) crc_table 0 = make_crc_entry i.
Proof.
  intros Hi.
  assert (Ht : crc_table
               = List.map (fun n => make_crc_entry (Z.of_nat n)) (seq 0 256))
    by (vm_compute; reflexivity).
  rewrite Ht.
  change 0 with ((fun n => make_crc_entry (Z.of_nat n)) 0%nat) at 1.
  rewrite map_nth, seq_nth by lia.
  f_equal. lia.
Qed.

Lemma crc_table_range e : In e crc_table -> 0 <= e < 2 ^ 32.
Proof.
  intros He.
  assert (Hall : forallb (fun e => (0 <=? e) && (e <? 2 ^ 32)) crc_table = true)
    by (vm_compute; reflexivity).
  rewrite forallb_forall in Hall. apply Hall in He.
  apply andb_true_iff in He. lia.
Qed.

(** Equations between xor expressions, bit by bit. *)
Ltac xor_bits :=
  apply Z.bits_inj'; intros ? ?; rewrite !Z.lxor_spec;
  repeat match goal with
         | |- context [Z.testbit ?a ?n] => destruct (Z.testbit a n)
         end;
  reflexivity.

(** The table round is the bitwise division step. *)
Lemma crc_shift_divide_bit c : crc_shift c = Standard.divide_bit c.
Proof.
  unfold crc_shift, Standard.divide_bit. rewrite Z.bit0_odd.
  destruct (Z.odd c); [apply Z.lxor_comm | reflexivity].
Qed.

(** A round is linear over xor. *)
Lemma crc_shift_lxor x y :
  crc_shift (Z.lxor x y) = Z.lxor (crc_shift x) (crc_shift y).
Proof.
  unfold crc_shift. rewrite Z.lxor_spec, Z.shiftr_lxor.
  destruct (Z.testbit x 0), (Z.testbit y 0); simpl; xor_bits.
Qed.

Lemma iter_crc_shift_lxor k x y :
  Nat.iter k crc_shift (Z.lxor x y)
  = Z.lxor (Nat.iter k crc_shift x) (Nat.iter k crc_shift y).
Proof.
  induction k as [|k IH]; simpl; [reflexivity|].
  rewrite IH. apply crc_shift_lxor.
Qed.

(** A value whose low [k] bits are clear is only shifted by [k] rounds. *)
Lemma iter_crc_shift_shiftl k h :
  Nat.iter k crc_shift (Z.shiftl h (Z.of_nat k)) = h.
Proof.
  induction k as [|k IH].
  - simpl. apply Z.shiftl_0_r.
  - rewrite Nat.iter_succ_r. unfold crc_shift at 2.
    rewrite Z.shiftl_spec_low by lia.
    rewrite Z.shiftr_shiftl_l by lia.
    replace (Z.of_nat (S k) - 1) with (Z.of_nat k) by lia. exact IH.
Qed.

Lemma split_low8 x :
  x = Z.lxor (Z.land x 255) (Z.shiftl (Z.shiftr x 8) 8).
Proof.
  apply Z.bits_inj'. intros n Hn.
  rewrite Z.lxor_spec, Z.land_spec.
  change 255 with (Z.ones 8).
  destruct (Z.lt_ge_cases n 8) as [Hlt|Hge].
  - rewrite Z.ones_spec_low by lia. rewrite Z.shiftl_spec_low by lia.
    rewrite andb_true_r, xorb_false_r. reflexivity.
  - rewrite Z.ones_spec_high by lia. rewrite Z.shiftl_spec by lia.
    rewrite Z.shiftr_spec by lia. rewrite andb_false_r. simpl.
    f_equal. lia.
Qed.

Lemma shiftr_byte b : Z.shiftr (byte_Z b) 8 = 0.
Proof.
  pose proof (byte_Z_range b).
  rewrite Z.shiftr_div_pow2 by lia. apply Z.div_small. simpl. lia.
Qed.

(** The table-driven byte update computes eight bitwise division steps. *)
Lemma crc_byte_divide_byte c b : crc_byte c b = Standard.divide_byte c b.
Proof.
  unfold crc_byte, Standard.divide_byte.
  set (x := Z.lxor c (byte_Z b)).
  assert (Hidx : 0 <= Z.land x 255 < 256).
  { change 255 with (Z.ones 8). rewrite Z.land_ones by lia.
    apply Z.mod_pos_bound. lia. }
  rewrite crc_table_lookup by exact Hidx. unfold make_crc_entry.
  assert (Hhigh : Z.shiftr c 8 = Z.shiftr x 8).
  { unfold x. rewrite Z.shiftr_lxor, shiftr_byte. symmetry. apply Z.lxor_0_r. }
  rewrite Hhigh.
  rewrite <- (iter_crc_shift_shiftl 8 (Z.shiftr x 8)) at 1.
  rewrite <- iter_crc_shift_lxor.
  change (Z.of_nat 8) with 8. rewrite <- split_low8.
  clear. generalize x. intros y.
  simpl. rewrite !crc_shift_divide_bit. reflexivity.
Qed.

Lemma fold_crc_byte_divide data c :
  fold_left crc_byte data c = fold_left Standard.divide_byte data c.
Proof.
  revert c. induction data as [|b data IH]; intros c; simpl; [reflexivity|].
  rewrite crc_byte_divide_byte. apply IH.
Qed.

Lemma crc_byte_range c b : 0 <= c < 2 ^ 32 -> 0 <= crc_byte c b < 2 ^ 32.
Proof.
  intros Hc. unfold crc_byte. apply lxor_range32.
  - set (i := Z.land (Z.lxor c (byte_Z b)) 255).
    assert (Hi : 0 <= i < 256).
    { unfold i. change 255 with (Z.ones 8). rewrite Z.land_ones by lia.
      apply Z.mod_pos_bound. lia. }
    apply crc_table_range. apply nth_In.
    assert (Hlen : length crc_table = 256%nat) by reflexivity.
    rewrite Hlen. lia.
  - apply shiftr_range32; lia.
Qed.

Lemma fold_crc_byte_range data c :
  0 <= c < 2 ^ 32 -> 0 <= fold_left crc_byte data c < 2 ^ 32.
Proof.
  revert c. induction data as [|b data IH]; intros c Hc; simpl; [exact Hc|].
  apply IH. apply crc_byte_range. exact Hc.
Qed.

Lemma mask32_range : 0 <= MASK32 < 2 ^ 32.
Proof. unfold MASK32. lia. Qed.

(** [zlib.crc32] always returns an unsigned 32-bit value. *)
Lemma crc32_range data value : 0 <= crc32 data value < 2 ^ 32.
Proof.
  unfold crc32. apply lxor_range32; [|apply mask32_range].
  apply fold_crc_byte_range. apply lxor_range32; [|apply mask32_range].
  apply land_mask32_range.
Qed.

Lemma crc32_nil value : 0 <= value < 2 ^ 32 -> crc32 [] value = value.
Proof.
  intros Hv. unfold crc32. simpl. rewrite land_mask32 by exact Hv.
  apply lxor_twice.
Qed.

(** Feeding two chunks one after the other is feeding their concatenation. *)
Lemma crc32_app a b value :
  crc32 (a ++ b) value = crc32 b (crc32 a value).
Proof.
  unfold crc32 at 2. rewrite land_mask32 by apply crc32_range.
  unfold crc32. rewrite lxor_twice, fold_left_app. reflexivity.
Qed.

(** Started from 0, [zlib.crc32] is the standard CRC-32. *)
Lemma crc32_standard data : crc32 data 0 = Standard.crc32 data.
Proof.
  unfold crc32, Standard.crc32. rewrite fold_crc_byte_divide. reflexivity.
Qed.

End CrcArith.

(** ** The world *)

Lemma log_event_add_log e w : log_event e w = add_log [e] w.
Proof. reflexivity. Qed.

Lemma add_log_add_log e1 e2 w : add_log e2 (add_log e1 w) = add_log (e1 ++ e2) w.
Proof. unfold add_log. simpl. rewrite <- app_assoc. reflexivity. Qed.

Lemma take_drop_length {A} k (l : list A) :
  take k l ++ drop (length (take k l)) l = l.
Proof.
  rewrite length_take. destruct (le_lt_dec k (length l)) as [Hle|Hgt].
  - rewrite Nat.min_l by lia. apply take_drop.
  - rewrite Nat.min_r by lia. rewrite drop_all, take_ge by lia.
    apply app_nil_r.
Qed.

(** ** The checksum loop *)

Lemma crc32_loop_step chunksize f checksum w :
  crc32_loop chunksize f checksum w =
  match read f chunksize w with
  | (Raise e, w') => (Raise e, w')
  | (Ok ([], _), w') => (Ok checksum, w')
  | (Ok (b :: chunk, f'), w') =>
      crc32_loop chunksize f' (Zlib.crc32 (b :: chunk) checksum) w'
  end.
Proof.
  rewrite crc32_loop_equation_1. unfold crc32_loop_unfold_clause_1, inspect.
  destruct (read f chunksize w) as [[[[|b chunk] f']|e] w']; reflexivity.
Qed.

(** What one [read] returns is a prefix of what is left, and it is empty
    only at the end of the file (for a chunk size of -1, or of 1 or more). *)
Lemma read_chunk (chunksize : Z) (rest : list byte) :
  -1 <= chunksize /\ chunksize <> 0 ->
  let chunk := if chunksize =? -1 then rest else take (Z.to_nat chunksize) rest in
  chunk ++ drop (length chunk) rest = rest /\ (chunk = [] -> rest = []).
Proof.
  intros Hne. simpl. destruct (chunksize =? -1) eqn:Hneg.
  - split; [|auto]. rewrite drop_all. apply app_nil_r.
  - split; [apply take_drop_length|].
    intros Hnil. destruct rest as [|b rest]; [reflexivity|].
    assert (Hk : (0 < Z.to_nat chunksize)%nat) by lia.
    destruct (Z.to_nat chunksize); [lia | discriminate].
Qed.

(** From any position, the loop folds the rest of the file into the
    checksum, for every chunk size [read] accepts other than 0, and only
    reads. *)
Lemma crc32_loop_spec n :
  forall chunksize f checksum w data,
    w_fs w !! f_name f = Some data ->
    (length data - f_pos f)%nat = n ->
    -1 <= chunksize /\ chunksize <> 0 ->
    0 <= checksum < 2 ^ 32 ->
    exists evs,
      crc32_loop chunksize f checksum w
      = (Ok (Zlib.crc32 (drop (f_pos f) data) checksum), add_log evs w)
      /\ forallb read_event evs = true.
Proof.
  induction n as [n IH] using lt_wf_ind.
  intros chunksize f checksum w data Hdata Hn Hne Hck.
  rewrite crc32_loop_step. unfold read.
  replace (chunksize <? -1) with false by (symmetry; apply Z.ltb_ge; lia).
  rewrite Hdata.
  set (rest := drop (f_pos f) data).
  destruct (read_chunk chunksize rest Hne) as [Hsplit Hnil].
  destruct (if chunksize =? -1 then rest else take (Z.to_nat chunksize) rest)
    as [|b chunk].
  - rewrite (Hnil eq_refl), crc32_nil by exact Hck.
    eexists. split; [rewrite log_event_add_log; reflexivity | reflexivity].
  - set (f' := set_pos (f_pos f + length (b :: chunk)) f).
    set (w' := log_event (EvRead (f_name f) (f_pos f) (length (b :: chunk))) w).
    assert (Hlen : (length (b :: chunk) <= length rest)%nat).
    { pose proof (f_equal length Hsplit) as Hl. rewrite length_app in Hl. lia. }
    unfold rest in Hlen. rewrite length_drop in Hlen. simpl in Hlen.
    destruct (IH (length data - f_pos f')%nat) with
      (chunksize := chunksize) (f := f') (w := w') (data := data)
      (checksum := Zlib.crc32 (b :: chunk) checksum)
      as [evs [Hrun Hevs]].
    + unfold f'. simpl. lia.
    + exact Hdata.
    + reflexivity.
    + exact Hne.
    + apply crc32_range.
    + rewrite Hrun. exists (EvRead (f_name f) (f_pos f) (length (b :: chunk)) :: evs).
      split; [|exact Hevs].
      unfold w'. rewrite log_event_add_log, add_log_add_log.
      rewrite <- crc32_app. f_equal. f_equal. f_equal.
      unfold f'. simpl f_pos. rewrite <- drop_drop. fold rest.
      exact Hsplit.
Qed.

(** [crc32] returns the standard CRC-32 of the whole file and leaves
    everything but the log as it was. *)
Lemma crc32_spec filename chunksize w data :
  w_fs w !! filename = Some data ->
  -1 <= chunksize /\ chunksize <> 0 ->
  exists evs,
    crc32 filename chunksize w
    = (Ok (Standard.crc32 data),
       add_log (EvOpen filename ModeRB :: evs ++ [EvClose filename]) w)
    /\ forallb read_event evs = true.
Proof.
  intros Hdata Hne. unfold crc32, with_open, open_. rewrite Hdata.
  destruct (crc32_loop_spec (length data - 0)%nat chunksize
              (FileObj filename ModeRB 0) 0
              (log_event (EvOpen filename ModeRB) w) data)
    as [evs [Hrun Hevs]]; try reflexivity; try lia; try exact Hdata; try exact Hne.
  rewrite Hrun. exists evs. split; [|exact Hevs].
  simpl. rewrite crc32_standard. f_equal.
  rewrite !log_event_add_log, !add_log_add_log. reflexivity.
Qed.

Lemma crc32_missing filename chunksize w :
  w_fs w !! filename = None ->
  crc32 filename chunksize w = (Raise FileNotFoundError, w).
Proof.
  intros Hnone. unfold crc32, with_open, open_. rewrite Hnone. reflexivity.
Qed.

(** ** Writing into a file's contents *)

Section WriteAt.

Variables (old : list byte) (pos : nat) (data : list byte).

Lemma length_padded_prefix : length (padded_prefix old pos) = pos.
Proof.
  unfold padded_prefix. rewrite length_app, length_take, length_replicate. lia.
Qed.

Lemma length_write_at :
  length (write_at old pos data) = Nat.max (length old) (pos + length data).
Proof.
  unfold write_at.
  rewrite !length_app, length_padded_prefix, length_drop. lia.
Qed.

(** Reading back what was written gives it back. *)
Lemma read_at_write_at :
  read_at (write_at old pos data) pos (length data) = data.
Proof.
  unfold read_at, write_at.
  rewrite drop_app_length' by (symmetry; apply length_padded_prefix).
  apply take_app_length.
Qed.

(** Bytes of the old contents outside the written range stay. *)
Lemma write_at_lookup_other (i : nat) :
  (i < pos \/ pos + length data <= i)%nat ->
  (i < length old)%nat ->
  write_at old pos data !! i = old !! i.
Proof.
  intros Hout Hi. unfold write_at. destruct Hout as [Hlt|Hge].
  - rewrite lookup_app_l by (rewrite length_padded_prefix; lia).
    unfold padded_prefix. rewrite lookup_app_l by (rewrite length_take; lia).
    apply lookup_take_lt. lia.
  - rewrite lookup_app_r by (rewrite length_padded_prefix; lia).
    rewrite lookup_app_r by (rewrite length_padded_prefix; lia).
    rewrite lookup_drop, length_padded_prefix. f_equal. lia.
Qed.

(** The prefix of the new contents up to the write is the padded prefix
    of the old. *)
Lemma padded_prefix_write_at :
  padded_prefix (write_at old pos data) pos = padded_prefix old pos.
Proof.
  unfold padded_prefix at 1. rewrite length_write_at.
  replace (pos - Nat.max (length old) (pos + length data))%nat with 0%nat by lia.
  simpl. rewrite app_nil_r. unfold write_at.
  apply take_app_length'. symmetry. apply length_padded_prefix.
Qed.

(** Writing the same bytes at the same place again changes nothing. *)
Lemma write_at_again :
  write_at (write_at old pos data) pos data = write_at old pos data.
Proof.
  unfold write_at at 1. rewrite padded_prefix_write_at.
  unfold write_at at 1.
  rewrite (app_assoc (padded_prefix old pos) data (drop (pos + length data) old)).
  rewrite drop_app_length'
    by (rewrite length_app, length_padded_prefix; reflexivity).
  reflexivity.
Qed.

End WriteAt.

(** ** int.to_bytes *)

Lemma length_big_endian n v : length (big_endian n v) = n.
Proof. induction n as [|n IH]; simpl; [reflexivity | rewrite IH; reflexivity]. Qed.

Lemma to_bytes_32bit v : 0 <= v < 2 ^ 32 -> to_bytes v 4 = Ok (big_endian 4 v).
Proof.
  intros Hv. unfold to_bytes.
  destruct (v <? 0) eqn:Hneg; [lia|].
  destruct (256 ^ Z.of_nat 4 <=? v) eqn:Hbig; [|reflexivity].
  apply Z.leb_le in Hbig. change (256 ^ Z.of_nat 4) with (2 ^ 32) in Hbig. lia.
Qed.

Lemma to_bytes_negative v n : v < 0 -> to_bytes v n = Raise OverflowError.
Proof.
  intros Hv. unfold to_bytes. destruct (v <? 0) eqn:Hneg; [reflexivity | lia].
Qed.

Lemma to_bytes_length v n data : to_bytes v n = Ok data -> length data = n.
Proof.
  unfold to_bytes. destruct (v <? 0); [discriminate|].
  destruct (256 ^ Z.of_nat n <=? v); [discriminate|].
  intros [= <-]. apply length_big_endian.
Qed.

(** ** The patch *)

(** Everything [patch_file] can do, case by case: the file is missing; the
    position resolves to before the start of the file; the value does not
    fit four unsigned bytes; or the four bytes are written and the value is
    printed. *)
Lemma patch_file_run name verbose v p w :
  patch_file name verbose v p w =
  match w_fs w !! name with
  | None => (Raise FileNotFoundError, w)
  | Some data =>
      let target := resolve p (length data) in
      if target <? 0
      then (Raise OSError_EINVAL, add_log [EvOpen name ModeRWB; EvClose name] w)
      else
        let off := Z.to_nat target in
        match to_bytes v 4 with
        | Raise e =>
            (Raise e,
             add_log [EvOpen name ModeRWB; EvSeek name off; EvClose name] w)
        | Ok be =>
            (Ok tt,
             World (<[name := write_at data off be]> (w_fs w))
                   (w_stdout w
                      ++ (if verbose
                          then [OutText (wrote_message v name p +:+ newline)]
                          else [])
                      ++ [OutText (format_08x v +:+ newline)])
                   (w_stderr w) (w_random w) (w_drawn w)
                   (w_log w ++ [EvOpen name ModeRWB; EvSeek name off;
                                EvWrite name off be; EvClose name]))
        end
  end.
Proof.
  unfold patch_file, with_open, open_.
  destruct (w_fs w !! name) as [data|] eqn:Hdata; [|reflexivity].
  unfold resolve, bind. cbn zeta.
  destruct (0 <=? p) eqn:Hp; unfold seek; simpl; rewrite Hdata.
  - destruct (p <? 0) eqn:Hneg; [lia|].
    unfold lift. destruct (to_bytes v 4) as [be|e]; simpl.
    + unfold write. simpl. rewrite Hdata.
      destruct verbose; simpl;
        unfold add_log, log_event, emit_stdout, set_fs; simpl;
        rewrite <- ?app_assoc; reflexivity.
    + unfold add_log, log_event; simpl; rewrite <- ?app_assoc; reflexivity.
  - destruct (Z.of_nat (length data) + p <? 0) eqn:Hneg.
    + unfold add_log, log_event; simpl; rewrite <- ?app_assoc; reflexivity.
    + unfold lift. destruct (to_bytes v 4) as [be|e]; simpl.
      * unfold write. simpl. rewrite Hdata.
        destruct verbose; simpl;
          unfold add_log, log_event, emit_stdout, set_fs; simpl;
          rewrite <- ?app_assoc; reflexivity.
      * unfold add_log, log_event; simpl; rewrite <- ?app_assoc; reflexivity.
Qed.

(** The file system after [patch_file]. *)
Lemma patch_file_fs name verbose v p w :
  w_fs (exec (patch_file name verbose v p) w) =
  match w_fs w !! name, to_bytes v 4 with
  | Some data, Ok be =>
      if resolve p (length data) <? 0 then w_fs w
      else <[name := write_at data (Z.to_nat (resolve p (length data))) be]> (w_fs w)
  | _, _ => w_fs w
  end.
Proof.
  unfold exec. rewrite patch_file_run.
  destruct (w_fs w !! name) as [data|]; [|reflexivity].
  cbn zeta. destruct (resolve p (length data) <? 0); simpl.
  - destruct (to_bytes v 4); reflexivity.
  - destruct (to_bytes v 4); reflexivity.
Qed.

(** Away from the last three bytes, patching again changes nothing. *)
Lemma patch_file_twice name verbose v p w :
  p <= -4 \/ 0 <= p ->
  w_fs (exec (patch_file name verbose v p) (exec (patch_file name verbose v p) w))
  = w_fs (exec (patch_file name verbose v p) w).
Proof.
  intros Hp. rewrite (patch_file_fs name verbose v p (exec _ w)).
  rewrite (patch_file_fs name verbose v p w).
  destruct (w_fs w !! name) as [data|] eqn:Hdata; [|rewrite Hdata; reflexivity].
  destruct (to_bytes v 4) as [be|e] eqn:Hbe; [|rewrite Hdata; reflexivity].
  destruct (resolve p (length data) <? 0) eqn:Hneg;
    [rewrite Hdata, Hneg; reflexivity|].
  rewrite lookup_insert_eq.
  pose proof (to_bytes_length _ _ _ Hbe) as Hlen.
  set (off := Z.to_nat (resolve p (length data))).
  assert (Hres : resolve p (length (write_at data off be)) = resolve p (length data)).
  { rewrite length_write_at, Hlen. unfold resolve in *. subst off.
    destruct (0 <=? p) eqn:Hnn; [reflexivity|]. lia. }
  rewrite Hres, Hneg. fold off.
  rewrite write_at_again. apply insert_insert_eq.
Qed.

(** In the last three bytes, a patch that succeeds lengthens the file, and
    so does the next: the two contents differ. *)
Lemma patch_file_twice_near_end name verbose v p w data :
  w_fs w !! name = Some data ->
  0 <= v < 2 ^ 32 ->
  -4 < p < 0 ->
  0 <= resolve p (length data) ->
  exists once twice,
    w_fs (exec (patch_file name verbose v p) w) !! name = Some once
    /\ w_fs (exec (patch_file name verbose v p)
               (exec (patch_file name verbose v p) w)) !! name = Some twice
    /\ (length once < length twice)%nat.
Proof.
  intros Hdata Hv Hp Hres.
  set (off := Z.to_nat (resolve p (length data))).
  assert (Hlen1 : length (write_at data off (big_endian 4 v))
                  = (length data + Z.to_nat (4 + p))%nat).
  { rewrite length_write_at, length_big_endian. subst off.
    unfold resolve in *. destruct (0 <=? p) eqn:Hnn; lia. }
  exists (write_at data off (big_endian 4 v)).
  rewrite (patch_file_fs name verbose v p (exec _ w)).
  rewrite (patch_file_fs name verbose v p w).
  rewrite Hdata, (to_bytes_32bit v Hv).
  destruct (resolve p (length data) <? 0) eqn:Hneg; [lia|]. fold off.
  rewrite lookup_insert_eq.
  set (once := write_at data off (big_endian 4 v)) in *.
  assert (Hres2 : 0 <= resolve p (length once)).
  { rewrite Hlen1. unfold resolve in *. destruct (0 <=? p); lia. }
  destruct (resolve p (length once) <? 0) eqn:Hneg2; [lia|].
  exists (write_at once (Z.to_nat (resolve p (length once))) (big_endian 4 v)).
  rewrite !lookup_insert_eq. split; [reflexivity|]. split; [reflexivity|].
  rewrite length_write_at, length_big_endian, Hlen1.
  unfold resolve. destruct (0 <=? p) eqn:Hnn; lia.
Qed.

(** ** The dispatcher *)

(** Without [--check] and without a (truthy) [--insert-random-at], the run
    is the patch with the given value and position when both are truthy,
    and nothing otherwise. *)
Lemma do_main_insert opts w :
  Opts.check opts = false ->
  truthy (Opts.index_random opts) = false ->
  do_main opts w =
  match Opts.insert opts, Opts.position opts with
  | Some v, Some p =>
      if truthy (Some v) && truthy (Some p)
      then patch_file (Opts.filename opts) (Opts.verbose opts) v p w
      else (Ok tt, w)
  | _, _ => (Ok tt, w)
  end.
Proof.
  intros Hcheck Hrandom. unfold do_main. rewrite Hcheck, Hrandom.
  unfold bind, ret.
  destruct (Opts.insert opts) as [v|]; [|reflexivity].
  destruct (Opts.position opts) as [p|]; [|reflexivity].
  destruct (truthy (Some v) && truthy (Some p)); reflexivity.
Qed.

(** The value [randint(1, 2**32-1)] returns in world [w]. *)
Lemma randint_run w :
  randint 1 (2 ^ 32 - 1) w
  = (Ok (1 + w_random w (w_drawn w) mod (2 ^ 32 - 1)), next_draw w).
Proof. reflexivity. Qed.

Lemma randint_range w :
  1 <= 1 + w_random w (w_drawn w) mod (2 ^ 32 - 1) <= 2 ^ 32 - 1.
Proof.
  pose proof (Z.mod_pos_bound (w_random w (w_drawn w)) (2 ^ 32 - 1)). lia.
Qed.

(** With a truthy [--insert-random-at n] the run is the patch with a
    freshly drawn value at [n], whatever [--insert] and [--position] say. *)
Lemma do_main_random opts w n :
  Opts.check opts = false ->
  Opts.index_random opts = Some n ->
  n <> 0 ->
  do_main opts w
  = patch_file (Opts.filename opts) (Opts.verbose opts)
      (1 + w_random w (w_drawn w) mod (2 ^ 32 - 1)) n (next_draw w).
Proof.
  intros Hcheck Hrandom Hn. unfold do_main. rewrite Hcheck, Hrandom.
  assert (Ht : truthy (Some n) = true).
  { simpl. destruct (n =? 0) eqn:E; [lia | reflexivity]. }
  rewrite Ht. unfold bind at 1. unfold bind at 1. rewrite randint_run.
  unfold ret, Opts.set_insert, Opts.set_position.
  cbn [Opts.insert Opts.position Opts.filename Opts.verbose]. rewrite Ht.
  pose proof (randint_range w) as Hr.
  assert (Hv : truthy (Some (1 + w_random w (w_drawn w) mod (2 ^ 32 - 1))) = true).
  { unfold truthy.
    destruct (1 + w_random w (w_drawn w) mod (2 ^ 32 - 1) =? 0) eqn:E;
      [lia | reflexivity]. }
  rewrite Hv. reflexivity.
Qed.

(** With [--check] the run is the checksum and its printing; [--verbose]
    only adds a line before. *)
Lemma do_main_check_verbose opts w data :
  Opts.check opts = true ->
  w_fs w !! Opts.filename opts = Some data ->
  exists evs,
    forallb read_event evs = true /\
    forall b,
      do_main (Opts.set_verbose b opts) w
      = (Ok tt,
         World (w_fs w)
               (w_stdout w
                  ++ (if b
                      then [OutText (check_message (Opts.filename opts)
                                       (Standard.crc32 data) +:+ newline)]
                      else [])
                  ++ [if Opts.binary opts
                      then OutBytes (big_endian 4 (Standard.crc32 data))
                      else OutText (format_08x (Standard.crc32 data) +:+ newline)])
               (w_stderr w) (w_random w) (w_drawn w)
               (w_log w ++ EvOpen (Opts.filename opts) ModeRB
                        :: evs ++ [EvClose (Opts.filename opts)])).
Proof.
  intros Hcheck Hdata.
  destruct (crc32_spec (Opts.filename opts) 65536 w data Hdata)
    as [evs [Hrun Hevs]]; [lia|].
  exists evs. split; [exact Hevs|]. intros b.
  unfold do_main. unfold Opts.set_verbose.
  cbn [Opts.check Opts.filename Opts.verbose Opts.binary]. rewrite Hcheck.
  unfold bind at 1. rewrite Hrun.
  assert (Hrange : 0 <= Standard.crc32 data < 2 ^ 32).
  { rewrite <- crc32_standard. apply crc32_range. }
  unfold bind, lift. rewrite (to_bytes_32bit _ Hrange).
  destruct b, (Opts.binary opts);
    unfold print, stdout_buffer_write, ret, add_log, emit_stdout; simpl;
    rewrite <- ?app_assoc; reflexivity.
Qed.

Lemma set_verbose_same opts : Opts.set_verbose (Opts.verbose opts) opts = opts.
Proof. destruct opts. reflexivity. Qed.

Lemma do_main_check opts w data :
  Opts.check opts = true ->
  w_fs w !! Opts.filename opts = Some data ->
  exists evs,
    forallb read_event evs = true /\
    do_main opts w
    = (Ok tt,
       World (w_fs w)
             (w_stdout w
                ++ (if Opts.verbose opts
                    then [OutText (check_message (Opts.filename opts)
                                     (Standard.crc32 data) +:+ newline)]
                    else [])
                ++ [if Opts.binary opts
                    then OutBytes (big_endian 4 (Standard.crc32 data))
                    else OutText (format_08x (Standard.crc32 data) +:+ newline)])
             (w_stderr w) (w_random w) (w_drawn w)
             (w_log w ++ EvOpen (Opts.filename opts) ModeRB
                      :: evs ++ [EvClose (Opts.filename opts)])).
Proof.
  intros Hcheck Hdata.
  destruct (do_main_check_verbose opts w data Hcheck Hdata) as [evs [Hevs Hrun]].
  exists evs. split; [exact Hevs|].
  rewrite <- (set_verbose_same opts) at 1. apply Hrun.
Qed.

Lemma do_main_check_missing opts w :
  Opts.check opts = true ->
  w_fs w !! Opts.filename opts = None ->
  do_main opts w = (Raise FileNotFoundError, w).
Proof.
  intros Hcheck Hnone. unfold do_main. rewrite Hcheck.
  unfold bind at 1. rewrite crc32_missing by exact Hnone. reflexivity.
Qed.

(** ** Big-endian encoding *)

Lemma byte_Z_Z_byte z : byte_Z (Z_byte z) = Z.land z 255.
Proof.
  unfold byte_Z, Z_byte.
  assert (Hr : 0 <= Z.land z 255 < 256).
  { change 255 with (Z.ones 8). rewrite Z.land_ones by lia.
    apply Z.mod_pos_bound. lia. }
  destruct (Byte.of_N (Z.to_N (Z.land z 255))) as [b|] eqn:Hb.
  - apply Byte.to_of_N in Hb. rewrite Hb. lia.
  - apply Byte.of_N_None_iff in Hb. lia.
Qed.

(** Decoding the four bytes gives the value back. *)
Lemma from_bytes_big_endian v :
  0 <= v < 2 ^ 32 -> from_bytes (big_endian 4 v) = v.
Proof.
  intros Hv. unfold from_bytes. simpl fold_left.
  rewrite !byte_Z_Z_byte. change 255 with (Z.ones 8).
  rewrite !Z.land_ones by lia. rewrite !Z.shiftr_div_pow2 by lia.
  change (8 * Z.of_nat 3) with 24. change (8 * Z.of_nat 2) with 16.
  change (8 * Z.of_nat 1) with 8. change (8 * Z.of_nat 0) with 0.
  change (2 ^ 24) with 16777216. change (2 ^ 16) with 65536.
  change (2 ^ 8) with 256. change (2 ^ 0) with 1.
  change (2 ^ 32) with 4294967296 in Hv.
  Z.div_mod_to_equations. lia.
Qed.

Lemma big_endian_nonzero v : 1 <= v < 2 ^ 32 -> big_endian 4 v <> zeros 4.
Proof.
  intros Hv Heq. pose proof (from_bytes_big_endian v ltac:(lia)) as Hback.
  rewrite Heq in Hback. vm_compute in Hback. lia.
Qed.

(** ** Standard output *)

Lemma length_list_byte_of_string s :
  length (list_byte_of_string s) = String.length s.
Proof.
  unfold list_byte_of_string. rewrite length_map.
  induction s as [|c s IH]; [reflexivity | simpl; f_equal; exact IH].
Qed.

Lemma list_byte_of_string_append a b :
  list_byte_of_string (a +:+ b) = list_byte_of_string a ++ list_byte_of_string b.
Proof.
  unfold list_byte_of_string.
  induction a as [|c a IH]; [reflexivity | simpl; f_equal; exact IH].
Qed.

(** The line of a [print] is its text and a line end. *)
Lemma print_line_bytes s :
  list_byte_of_string (s +:+ newline) = list_byte_of_string s ++ [x0a].
Proof. rewrite list_byte_of_string_append. reflexivity. Qed.

(** A write on the text layer adds its bytes after everything the two
    layers have. *)
Lemma text_write_flat mode b t :
  t_below (flush_pending (text_write mode b t))
  = t_below (flush_pending t) ++ b.
Proof.
  unfold text_write, flush_pending.
  destruct (chunk_size <? Z.of_nat (length (t_pending t) + length b));
    cbn [t_below t_pending];
    match goal with |- context [if ?c then _ else _] => destruct c end;
    cbn [t_below t_pending]; rewrite ?app_nil_r, <- ?app_assoc; reflexivity.
Qed.

Lemma issue_text_flat mode line t :
  t_below (flush_pending (issue mode t (OutText line)))
  = t_below (flush_pending t) ++ list_byte_of_string line.
Proof.
  unfold issue. cbn zeta. rewrite !text_write_flat, <- app_assoc, take_drop.
  reflexivity.
Qed.

(** A write on a text layer that holds nothing. *)
Lemma text_write_fresh mode s :
  text_write mode s (TextLayer [] [])
  = if (chunk_size <=? Z.of_nat (length s))
       || match mode with
          | LineBuffered => has_line_end s
          | WriteThrough => true
          | BlockBuffered => false
          end
    then TextLayer s [] else TextLayer [] s.
Proof.
  unfold text_write. cbn [t_pending t_below length app Nat.add].
  destruct (chunk_size <? Z.of_nat (length s)); cbn [t_below t_pending];
    match goal with |- context [if ?c then _ else _] => destruct c end;
    reflexivity.
Qed.

(** The write of a line end on a text layer that is not full. *)
Lemma text_write_line_end mode below pending :
  Z.of_nat (length pending) < chunk_size ->
  text_write mode [x0a] (TextLayer below pending)
  = match mode with
    | BlockBuffered =>
        if Z.of_nat (length pending) + 1 <? chunk_size
        then TextLayer below (pending ++ [x0a])
        else TextLayer (below ++ pending ++ [x0a]) []
    | _ => TextLayer (below ++ pending ++ [x0a]) []
    end.
Proof.
  intros Hlen. unfold text_write. cbn [t_pending t_below length].
  replace (chunk_size <? Z.of_nat (length pending + 1)) with false
    by (symmetry; apply Z.ltb_ge; lia).
  cbn [t_pending t_below]. rewrite length_app. cbn [length].
  unfold flush_pending. cbn [t_pending t_below].
  destruct mode; cbn [has_line_end existsb]; rewrite ?orb_true_r;
    try reflexivity.
  rewrite orb_false_r.
  destruct (Z.of_nat (length pending) + 1 <? chunk_size) eqn:Hfull.
  - replace (chunk_size <=? Z.of_nat (length pending + 1)) with false
      by (symmetry; apply Z.leb_gt; lia).
    reflexivity.
  - replace (chunk_size <=? Z.of_nat (length pending + 1)) with true
      by (symmetry; apply Z.leb_le; lia).
    reflexivity.
Qed.

(** The two writes of a [print] on a standard output on which nothing has
    been written. *)
Lemma issue_print_fresh mode line :
  issue mode (TextLayer [] []) (OutText (line +:+ newline))
  = match mode with
    | BlockBuffered =>
        if Z.of_nat (String.length line) + 1 <? chunk_size
        then TextLayer [] (list_byte_of_string line ++ [x0a])
        else if Z.of_nat (String.length line) + 1 =? chunk_size
        then TextLayer (list_byte_of_string line ++ [x0a]) []
        else TextLayer (list_byte_of_string line) [x0a]
    | _ => TextLayer (list_byte_of_string line ++ [x0a]) []
    end.
Proof.
  unfold issue. cbn zeta. rewrite print_line_bytes.
  set (s := list_byte_of_string line).
  assert (Hlen : length s = String.length line)
    by apply length_list_byte_of_string.
  rewrite length_app. cbn [length].
  replace (length s + 1 - 1)%nat with (length s) by lia.
  rewrite take_app_length, drop_app_length, text_write_fresh, <- Hlen.
  assert (Hempty : Z.of_nat (length (@nil byte)) < chunk_size) by reflexivity.
  destruct (chunk_size <=? Z.of_nat (length s)) eqn:Hfull; cbn [orb].
  - rewrite (text_write_line_end mode s [] Hempty). cbn [length app].
    apply Z.leb_le in Hfull.
    replace (Z.of_nat (length s) + 1 <? chunk_size) with false
      by (symmetry; apply Z.ltb_ge; lia).
    replace (Z.of_nat (length s) + 1 =? chunk_size) with false
      by (symmetry; apply Z.eqb_neq; lia).
    replace (0 + 1 <? chunk_size) with true by reflexivity.
    destruct mode; reflexivity.
  - apply Z.leb_gt in Hfull.
    assert (Hflushed : text_write mode [x0a] (TextLayer s [])
                       = match mode with
                         | BlockBuffered => TextLayer s [x0a]
                         | _ => TextLayer (s ++ [x0a]) []
                         end).
    { rewrite (text_write_line_end mode s [] Hempty). cbn [length app].
      replace (0 + 1 <? chunk_size) with true by reflexivity. reflexivity. }
    pose proof (text_write_line_end mode [] s Hfull) as Hheld.
    cbn [app] in Hheld.
    destruct mode.
    + destruct (has_line_end s); [exact Hflushed | exact Hheld].
    + exact Hflushed.
    + rewrite Hheld.
      destruct (Z.of_nat (length s) + 1 <? chunk_size) eqn:Hroom;
        [reflexivity|].
      replace (Z.of_nat (length s) + 1 =? chunk_size) with true
        by (symmetry; apply Z.eqb_eq; apply Z.ltb_ge in Hroom; lia).
      reflexivity.
Qed.

(** A single write arrives as it is. *)
Lemma stdout_stream_single mode out : stdout_stream mode [out] = item_bytes out.
Proof.
  unfold stdout_stream. cbn [fold_left]. destruct out as [line|b].
  - rewrite issue_text_flat. reflexivity.
  - unfold issue, buffer_write, flush_pending. cbn [t_below t_pending].
    apply app_nil_r.
Qed.

(** The stream after a [print] and one more write. *)
Lemma stdout_stream_diagnostic mode line out :
  stdout_stream mode [OutText (line +:+ newline); out]
  = match out, mode with
    | OutBytes b, BlockBuffered =>
        if Z.of_nat (String.length line) + 1 <? chunk_size
        then b ++ list_byte_of_string (line +:+ newline)
        else if Z.of_nat (String.length line) + 1 =? chunk_size
        then list_byte_of_string (line +:+ newline) ++ b
        else list_byte_of_string line ++ b ++ [x0a]
    | _, _ => list_byte_of_string (line +:+ newline) ++ item_bytes out
    end.
Proof.
  unfold stdout_stream. cbn [fold_left]. destruct out as [value|b].
  - rewrite !issue_text_flat. reflexivity.
  - rewrite issue_print_fresh, print_line_bytes.
    unfold issue, buffer_write, flush_pending.
    destruct mode; cbn [t_below t_pending item_bytes app];
      rewrite ?app_nil_r; try reflexivity.
    destruct (Z.of_nat (String.length line) + 1 <? chunk_size);
      [cbn [t_below t_pending app]; reflexivity|].
    destruct (Z.of_nat (String.length line) + 1 =? chunk_size);
      cbn [t_below t_pending app]; rewrite ?app_nil_r, <- ?app_assoc; reflexivity.
Qed.

(** * The claims *)

(** ** The checksum engine *)

(** C1. For every file and every chunk size of at least 1, [crc32] returns
    the standard CRC-32 (reflected, polynomial 0xEDB88320) of the whole
    contents of the file, however the reads cut it into chunks; for a file
    of length zero that is 0. The file system is left as it was. *)
Theorem crc32_is_standard_crc32 filename chunksize w data :
  contents filename w = Some data ->
  1 <= chunksize ->
  outcome (crc32 filename chunksize) w = Ok (Standard.crc32 data)
  /\ (data = [] -> outcome (crc32 filename chunksize) w = Ok 0)
  /\ w_fs (exec (crc32 filename chunksize) w) = w_fs w.
Proof.
  intros Hdata Hchunk.
  destruct (crc32_spec filename chunksize w data Hdata) as [evs [Hrun _]]; [lia|].
  unfold outcome, exec. rewrite Hrun. simpl.
  repeat split. intros ->. reflexivity.
Qed.

Lemma crc32_is_standard_crc32_witness :
  outcome (crc32 test_zero_bin 5) w_zero16 = Ok (Standard.crc32 (zeros 16))
  /\ (zeros 16 = [] -> outcome (crc32 test_zero_bin 5) w_zero16 = Ok 0)
  /\ w_fs (exec (crc32 test_zero_bin 5) w_zero16) = w_fs w_zero16.
Proof.
  apply (crc32_is_standard_crc32 test_zero_bin 5 w_zero16 (zeros 16));
    [reflexivity | lia].
Defined.

(** The check value of the CRC-32 catalogue, and the two files of the
    specification's scenario. *)
Example crc32_check_value :
  Standard.crc32 (list_byte_of_string "123456789") = 0xCBF43926.
Proof. vm_compute. reflexivity. Qed.

Example crc32_empty_file :
  outcome (crc32 test_zero_bin 65536) w_empty_file = Ok 0.
Proof. vm_compute. reflexivity. Qed.

Example crc32_sixteen_zero_bytes :
  outcome (crc32 test_zero_bin 65536) w_zero16 = Ok 0xECBB4B55.
Proof. vm_compute. reflexivity. Qed.

(** ** The patcher *)

(** What a patch that succeeds leaves: the four bytes at the offset the
    position resolved to when the file was patched, every other byte of
    the old file as it was, and a file that is longer only when the four
    bytes end past its old end. *)
Lemma patch_file_written name verbose v p w data :
  w_fs w !! name = Some data ->
  0 <= v < 2 ^ 32 ->
  0 <= resolve p (length data) ->
  let off := Z.to_nat (resolve p (length data)) in
  outcome (patch_file name verbose v p) w = Ok tt
  /\ exists data',
       w_fs (exec (patch_file name verbose v p) w) !! name = Some data'
       /\ length data' = Nat.max (length data) (off + 4)
       /\ read_at data' off 4 = big_endian 4 v
       /\ (forall i : nat,
             (i < length data)%nat ->
             (i < off \/ off + 4 <= i)%nat ->
             data' !! i = data !! i).
Proof.
  intros Hdata Hv Hres off. unfold outcome, exec.
  rewrite patch_file_run, Hdata. cbn zeta.
  destruct (resolve p (length data) <? 0) eqn:Hneg; [lia|].
  rewrite (to_bytes_32bit v Hv). simpl fst. simpl snd. simpl w_fs.
  split; [reflexivity|].
  exists (write_at data off (big_endian 4 v)).
  rewrite lookup_insert_eq. split; [reflexivity|].
  split; [rewrite length_write_at, length_big_endian; reflexivity|].
  split.
  - rewrite <- (length_big_endian 4 v) at 2. apply read_at_write_at.
  - intros i Hi Hout. apply write_at_lookup_other; [|exact Hi].
    rewrite length_big_endian. exact Hout.
Qed.

(** C2, as the code has it. After the patch of a file with a 32-bit value
    [v] at a signed position [p] that is not -1, -2 or -3, the file has the
    length it had or ends with the four bytes, the position resolves on the
    patched file to the offset it resolved to before ([p] if [p >= 0], the
    length of the file plus [p] otherwise), the four bytes there are the
    big-endian encoding of [v], and every other byte of the old file is what
    it was. At -1, -2 and -3 the four bytes end past the old end of the
    file and lengthen it: they are at the offset the position resolved to
    before the patch, and at the offset it resolves to on the patched file
    there are fewer than four bytes left to read. The 16 zero bytes patched
    with 0xCAFECAFE at -8 become eight zero bytes, CA FE CA FE, four zero
    bytes. [do_main] runs this patch when it is given a value and a
    position that are both non-zero. *)
Theorem patch_then_read_back :
  (forall name verbose v p w data,
      contents name w = Some data ->
      0 <= v < 2 ^ 32 ->
      0 <= resolve p (length data) ->
      p <= -4 \/ 0 <= p ->
      outcome (patch_file name verbose v p) w = Ok tt
      /\ exists data',
           contents name (exec (patch_file name verbose v p) w) = Some data'
           /\ resolve p (length data') = resolve p (length data)
           /\ read_at data' (Z.to_nat (resolve p (length data'))) 4
              = big_endian 4 v
           /\ from_bytes (read_at data' (Z.to_nat (resolve p (length data'))) 4)
              = v
           /\ (forall i : nat,
                 (i < length data)%nat ->
                 (i < Z.to_nat (resolve p (length data'))
                  \/ Z.to_nat (resolve p (length data')) + 4 <= i)%nat ->
                 data' !! i = data !! i))
  /\ (forall name verbose v p w data,
        contents name w = Some data ->
        0 <= v < 2 ^ 32 ->
        0 <= resolve p (length data) ->
        -4 < p < 0 ->
        outcome (patch_file name verbose v p) w = Ok tt
        /\ exists data',
             contents name (exec (patch_file name verbose v p) w) = Some data'
             /\ length data' = (length data + Z.to_nat (4 + p))%nat
             /\ read_at data' (Z.to_nat (resolve p (length data))) 4
                = big_endian 4 v
             /\ (forall i : nat,
                   (i < Z.to_nat (resolve p (length data)))%nat ->
                   data' !! i = data !! i)
             /\ length (read_at data' (Z.to_nat (resolve p (length data'))) 4)
                = Z.to_nat (- p))
  /\ (forall opts w v p,
        Opts.check opts = false ->
        truthy (Opts.index_random opts) = false ->
        Opts.insert opts = Some v ->
        Opts.position opts = Some p ->
        v <> 0 ->
        p <> 0 ->
        do_main opts w
        = patch_file (Opts.filename opts) (Opts.verbose opts) v p w)
  /\ contents test_zero_bin (exec (do_main (insert_opts 0xCAFECAFE (-8))) w_zero16)
     = Some (zeros 8 ++ [xca; xfe; xca; xfe] ++ zeros 4).
Proof.
  split; [|split; [|split; [|vm_compute; reflexivity]]].
  - intros name verbose v p w data Hdata Hv Hres Hp. unfold contents in *.
    destruct (patch_file_written name verbose v p w data Hdata Hv Hres)
      as (Hok & data' & Hdata' & Hlen & Hback & Hother).
    split; [exact Hok|]. exists data'. split; [exact Hdata'|].
    assert (Hsame : resolve p (length data') = resolve p (length data)).
    { rewrite Hlen. unfold resolve in *.
      destruct (0 <=? p) eqn:Hnn; [reflexivity | lia]. }
    rewrite Hsame. split; [reflexivity|]. split; [exact Hback|].
    split; [rewrite Hback; apply from_bytes_big_endian; exact Hv | exact Hother].
  - intros name verbose v p w data Hdata Hv Hres Hp. unfold contents in *.
    destruct (patch_file_written name verbose v p w data Hdata Hv Hres)
      as (Hok & data' & Hdata' & Hlen & Hback & Hother).
    split; [exact Hok|]. exists data'. split; [exact Hdata'|].
    assert (Hoff : resolve p (length data) = Z.of_nat (length data) + p).
    { unfold resolve. destruct (0 <=? p) eqn:Hnn; [lia | reflexivity]. }
    assert (Hgrown : length data' = (length data + Z.to_nat (4 + p))%nat).
    { rewrite Hlen, Hoff. lia. }
    split; [exact Hgrown|]. split; [exact Hback|]. split.
    + intros i Hi. apply Hother; lia.
    + unfold read_at. rewrite length_take, length_drop.
      assert (Hoff' : resolve p (length data') = Z.of_nat (length data') + p).
      { unfold resolve. destruct (0 <=? p) eqn:Hnn; [lia | reflexivity]. }
      rewrite Hoff', Hgrown. lia.
  - intros opts w v p Hcheck Hrandom Hins Hpos Hv Hp.
    rewrite do_main_insert by assumption. rewrite Hins, Hpos. simpl.
    destruct (v =? 0) eqn:Ev; [lia|]. destruct (p =? 0) eqn:Ep; [lia|].
    reflexivity.
Qed.

Lemma patch_then_read_back_witness :
  (outcome (patch_file test_zero_bin false 0xCAFECAFE (-8)) w_zero16 = Ok tt
   /\ exists data',
        contents test_zero_bin
          (exec (patch_file test_zero_bin false 0xCAFECAFE (-8)) w_zero16)
        = Some data'
        /\ resolve (-8) (length data') = resolve (-8) (length (zeros 16))
        /\ read_at data' (Z.to_nat (resolve (-8) (length data'))) 4
           = big_endian 4 0xCAFECAFE
        /\ from_bytes (read_at data' (Z.to_nat (resolve (-8) (length data'))) 4)
           = 0xCAFECAFE
        /\ (forall i : nat,
              (i < length (zeros 16))%nat ->
              (i < Z.to_nat (resolve (-8) (length data'))
               \/ Z.to_nat (resolve (-8) (length data')) + 4 <= i)%nat ->
              data' !! i = zeros 16 !! i))
  /\ (outcome (patch_file test_zero_bin false 0xCAFECAFE (-1)) w_zero16 = Ok tt
      /\ exists data',
           contents test_zero_bin
             (exec (patch_file test_zero_bin false 0xCAFECAFE (-1)) w_zero16)
           = Some data'
           /\ length data' = (length (zeros 16) + Z.to_nat (4 + -1))%nat
           /\ read_at data' (Z.to_nat (resolve (-1) (length (zeros 16)))) 4
              = big_endian 4 0xCAFECAFE
           /\ (forall i : nat,
                 (i < Z.to_nat (resolve (-1) (length (zeros 16))))%nat ->
                 data' !! i = zeros 16 !! i)
           /\ length (read_at data' (Z.to_nat (resolve (-1) (length data'))) 4)
              = Z.to_nat (- -1))
  /\ do_main (insert_opts 0xCAFECAFE (-8)) w_zero16
     = patch_file test_zero_bin false 0xCAFECAFE (-8) w_zero16.
Proof.
  split; [|split].
  - apply (proj1 patch_then_read_back test_zero_bin false 0xCAFECAFE (-8)
             w_zero16 (zeros 16));
      [reflexivity | lia | vm_compute; discriminate | lia].
  - apply (proj1 (proj2 patch_then_read_back) test_zero_bin false 0xCAFECAFE (-1)
             w_zero16 (zeros 16));
      [reflexivity | lia | vm_compute; discriminate | lia].
  - apply (proj1 (proj2 (proj2 patch_then_read_back))
             (insert_opts 0xCAFECAFE (-8)) w_zero16 0xCAFECAFE (-8));
      try reflexivity; lia.
Defined.

(** C2, as stated, fails at the end of the file: the 16 zero bytes patched
    with 0xCAFECAFE at -1 become 19 bytes, fifteen zero bytes and CA FE CA
    FE; the position -1 resolves on them to 18, the length of the file plus
    the position, and four bytes read from there are the one byte FE, not
    the encoding of the value. *)
Lemma read_back_misses_near_end :
  outcome (do_main (insert_opts 0xCAFECAFE (-1))) w_zero16 = Ok tt
  /\ contents test_zero_bin patched_once
     = Some (zeros 15 ++ [xca; xfe; xca; xfe])
  /\ resolve (-1) (length (zeros 15 ++ [xca; xfe; xca; xfe])) = 18
  /\ read_at (zeros 15 ++ [xca; xfe; xca; xfe]) 18 4 = [xfe]
  /\ big_endian 4 0xCAFECAFE = [xca; xfe; xca; xfe]
  /\ read_at (zeros 15 ++ [xca; xfe; xca; xfe])
       (Z.to_nat (resolve (-1) (length (zeros 15 ++ [xca; xfe; xca; xfe])))) 4
     <> big_endian 4 0xCAFECAFE.
Proof.
  repeat split; try (vm_compute; reflexivity). vm_compute. discriminate.
Qed.

(** ** The dispatcher *)

(** C3. With [--insert cafecafe --position 0] the program opens no file,
    writes nothing and prints nothing, and likewise with [--insert 0
    --position 8]: the patch is not invoked when the value or the position
    is zero. *)
Theorem explicit_insert_skipped_at_zero :
  main (insert_cmdline "cafecafe" "0") w_zero16 = (Ok tt, w_zero16)
  /\ do_main (insert_opts 0xCAFECAFE 0) w_zero16 = (Ok tt, w_zero16)
  /\ main (insert_cmdline "0" "8") w_zero16 = (Ok tt, w_zero16)
  /\ do_main (insert_opts 0 8) w_zero16 = (Ok tt, w_zero16).
Proof. repeat split; vm_compute; reflexivity. Qed.

(** C4. With [--insert-random-at 0] the program draws no value, opens no
    file, writes nothing and prints nothing. *)
Theorem random_insert_skipped_at_zero :
  main (random_cmdline "0") w_zero16 = (Ok tt, w_zero16)
  /\ do_main (random_opts 0) w_zero16 = (Ok tt, w_zero16).
Proof. repeat split; vm_compute; reflexivity. Qed.

(** Reads are not patch operations. *)
Lemma reads_are_not_patch evs :
  forallb read_event evs = true ->
  forallb (fun e => negb (patch_event e)) evs = true.
Proof.
  induction evs as [|e evs IH]; simpl; [reflexivity|].
  intros H. apply andb_true_iff in H. destruct H as [He Hevs].
  rewrite (IH Hevs). destruct e; simpl in *; try discriminate; reflexivity.
Qed.

(** C5. Whenever the check flag is set, whatever the patch options are, the
    run leaves every file as it was, draws no random value, and performs no
    patch operation (no opening for update, no seek, no write); when the
    file exists the run succeeds and prints the checksum of its contents. *)
Theorem check_mode_takes_precedence opts w :
  Opts.check opts = true ->
  w_fs (exec (do_main opts) w) = w_fs w
  /\ w_drawn (exec (do_main opts) w) = w_drawn w
  /\ (exists evs,
         w_log (exec (do_main opts) w) = w_log w ++ evs
         /\ forallb (fun e => negb (patch_event e)) evs = true)
  /\ forall data,
       contents (Opts.filename opts) w = Some data ->
       outcome (do_main opts) w = Ok tt
       /\ w_stdout (exec (do_main opts) w)
          = w_stdout w
              ++ (if Opts.verbose opts
                  then [OutText (check_message (Opts.filename opts)
                                   (Standard.crc32 data) +:+ newline)]
                  else [])
              ++ [if Opts.binary opts
                  then OutBytes (big_endian 4 (Standard.crc32 data))
                  else OutText (format_08x (Standard.crc32 data) +:+ newline)].
Proof.
  intros Hcheck. unfold contents, outcome, exec.
  destruct (w_fs w !! Opts.filename opts) as [data|] eqn:Hdata.
  - destruct (do_main_check opts w data Hcheck Hdata) as [evs [Hevs Hrun]].
    rewrite Hrun. simpl.
    split; [reflexivity|]. split; [reflexivity|]. split.
    + eexists. split; [reflexivity|]. simpl.
      rewrite forallb_app, (reads_are_not_patch evs Hevs). reflexivity.
    + intros data' [= <-]. split; reflexivity.
  - rewrite (do_main_check_missing opts w Hcheck Hdata). simpl.
    split; [reflexivity|]. split; [reflexivity|]. split.
    + exists []. split; [symmetry; apply app_nil_r | reflexivity].
    + intros data' [=].
Qed.

Lemma check_mode_takes_precedence_witness :
  w_fs (exec (do_main check_with_insert_opts) w_zero16) = w_fs w_zero16
  /\ outcome (do_main check_with_insert_opts) w_zero16 = Ok tt.
Proof.
  pose proof (check_mode_takes_precedence check_with_insert_opts w_zero16 eq_refl)
    as (Hfs & _ & _ & Hout).
  split; [exact Hfs|]. apply (Hout (zeros 16)). reflexivity.
Defined.

(** ** Verbose output *)

Lemma patch_file_verbose name v p w :
  differ_by_diagnostic false w
    (patch_file name true v p w) (patch_file name false v p w).
Proof.
  rewrite !patch_file_run. unfold differ_by_diagnostic.
  destruct (w_fs w !! name) as [data|]; cbn zeta.
  - destruct (resolve p (length data) <? 0); simpl.
    + repeat split. exists [], []. simpl. rewrite app_nil_r. auto.
    + destruct (to_bytes v 4) as [be|e]; simpl.
      * repeat split. eexists [_], [_]. simpl.
        split; [|split; reflexivity]. right.
        eexists _, _. split; [reflexivity|]. split; [reflexivity|].
        eexists. reflexivity.
      * repeat split. exists [], []. simpl. rewrite app_nil_r. auto.
  - simpl. repeat split. exists [], []. simpl. rewrite app_nil_r. auto.
Qed.

Lemma differ_by_diagnostic_refl raw w r :
  w_stderr (snd r) = w_stderr w ->
  w_stdout (snd r) = w_stdout w ->
  differ_by_diagnostic raw w r r.
Proof.
  intros Herr Hout. unfold differ_by_diagnostic. repeat split; try exact Herr.
  exists [], []. simpl. rewrite app_nil_r. auto.
Qed.

Lemma do_main_verbose opts w :
  differ_by_diagnostic (Opts.check opts && Opts.binary opts) w
    (do_main (Opts.set_verbose true opts) w)
    (do_main (Opts.set_verbose false opts) w).
Proof.
  destruct (Opts.check opts) eqn:Hcheck.
  - destruct (w_fs w !! Opts.filename opts) as [data|] eqn:Hdata.
    + destruct (do_main_check_verbose opts w data Hcheck Hdata)
        as [evs [_ Hrun]].
      rewrite !Hrun. unfold differ_by_diagnostic. simpl.
      repeat split. eexists [_], [_]. simpl.
      split; [|split; reflexivity]. right.
      eexists _, _. split; [reflexivity|]. split; [reflexivity|].
      destruct (Opts.binary opts); eexists; reflexivity.
    + rewrite !do_main_check_missing by (destruct opts; assumption).
      apply differ_by_diagnostic_refl; reflexivity.
  - simpl andb. destruct (Opts.index_random opts) as [n|] eqn:Hrandom.
    + destruct (Z.eq_dec n 0) as [->|Hn].
      * rewrite !do_main_insert
          by (destruct opts; simpl in *; subst; reflexivity || assumption).
        destruct opts as [fn bin chk ir vb [v|] [p|]]; simpl;
          try (apply differ_by_diagnostic_refl; reflexivity).
        destruct (negb (v =? 0) && negb (p =? 0));
          [apply patch_file_verbose
          | apply differ_by_diagnostic_refl; reflexivity].
      * rewrite !(do_main_random _ w n)
          by (destruct opts; simpl in *; assumption).
        destruct opts as [fn bin chk ir vb ins pos]. simpl.
        apply (patch_file_verbose fn _ n (next_draw w)).
    + rewrite !do_main_insert
        by (destruct opts; simpl in *; subst; reflexivity || assumption).
      destruct opts as [fn bin chk ir vb [v|] [p|]]; simpl;
        try (apply differ_by_diagnostic_refl; reflexivity).
      destruct (negb (v =? 0) && negb (p =? 0));
        [apply patch_file_verbose
        | apply differ_by_diagnostic_refl; reflexivity].
Qed.

(** C6, as the code has it. A run with [--verbose] and the same run without
    it have the same outcome, leave the same files, perform the same file
    operations and write nothing to standard error: the diagnostic, when
    there is one, is one more line printed on standard output itself, by a
    call that comes before the one that writes the terse output, and the
    terse output is written all the same (four bytes through the buffer
    with [--check --raw], a line otherwise). On the stream a single write
    arrives as it is, and the line of the diagnostic comes before a terse
    line. Before four raw bytes it comes when standard output is a terminal
    or unbuffered; when standard output is a pipe or a file the line waits
    in the text layer and the four bytes come first, unless the line fills
    the text layer (with its line end it has [chunk_size] bytes: it comes
    first; it has more: its text comes first, its line end last).
    [crc32.py -c -v -r test-zero.bin] on 16 zero bytes gives a pipe the bytes
    EC BB 4B 55 and then the line, a terminal the line and then the bytes. *)
Theorem verbose_adds_a_line_on_stdout :
  (forall opts w,
      differ_by_diagnostic (Opts.check opts && Opts.binary opts) w
        (do_main (Opts.set_verbose true opts) w)
        (do_main (Opts.set_verbose false opts) w))
  /\ (forall mode out, stdout_stream mode [out] = item_bytes out)
  /\ (forall mode line out,
        stdout_stream mode [OutText (line +:+ newline); out]
        = match out, mode with
          | OutBytes b, BlockBuffered =>
              if Z.of_nat (String.length line) + 1 <? chunk_size
              then b ++ list_byte_of_string (line +:+ newline)
              else if Z.of_nat (String.length line) + 1 =? chunk_size
              then list_byte_of_string (line +:+ newline) ++ b
              else list_byte_of_string line ++ b ++ [x0a]
          | _, _ => list_byte_of_string (line +:+ newline) ++ item_bytes out
          end)
  /\ stdout_stream BlockBuffered
       (w_stdout (exec (do_main (check_raw_opts true)) w_zero16))
     = [xec; xbb; x4b; x55]
         ++ list_byte_of_string ("CRC32 of test-zero.bin is: ecbb4b55" +:+ newline)
  /\ stdout_stream LineBuffered
       (w_stdout (exec (do_main (check_raw_opts true)) w_zero16))
     = list_byte_of_string ("CRC32 of test-zero.bin is: ecbb4b55" +:+ newline)
         ++ [xec; xbb; x4b; x55]
  /\ stdout_stream BlockBuffered
       (w_stdout (exec (do_main (check_raw_opts false)) w_zero16))
     = [xec; xbb; x4b; x55].
Proof.
  split; [exact do_main_verbose|].
  split; [exact stdout_stream_single|].
  split; [exact stdout_stream_diagnostic|].
  repeat split; vm_compute; reflexivity.
Qed.

(** C6, as stated, fails: with [-c -v] on an empty file, standard output
    carries the diagnostic as well as the checksum line, so the stream does
    not receive the bytes it receives from the run without [-v], however
    standard output is buffered; nothing goes to another stream. *)
Lemma verbose_changes_stdout :
  stdout_stream BlockBuffered
    (w_stdout (exec (do_main (check_opts true)) w_empty_file))
  <> stdout_stream BlockBuffered
       (w_stdout (exec (do_main (check_opts false)) w_empty_file))
  /\ stdout_stream LineBuffered
       (w_stdout (exec (do_main (check_opts true)) w_empty_file))
     <> stdout_stream LineBuffered
          (w_stdout (exec (do_main (check_opts false)) w_empty_file))
  /\ stdout_stream WriteThrough
       (w_stdout (exec (do_main (check_opts true)) w_empty_file))
     <> stdout_stream WriteThrough
          (w_stdout (exec (do_main (check_opts false)) w_empty_file))
  /\ w_stdout (exec (do_main (check_opts true)) w_empty_file)
     = [OutText (check_message test_zero_bin 0 +:+ newline);
        OutText ("00000000" +:+ newline)]
  /\ w_stdout (exec (do_main (check_opts false)) w_empty_file)
     = [OutText ("00000000" +:+ newline)]
  /\ w_stderr (exec (do_main (check_opts true)) w_empty_file) = [].
Proof.
  split; [vm_compute; discriminate|].
  split; [vm_compute; discriminate|].
  split; [vm_compute; discriminate|].
  repeat split; vm_compute; reflexivity.
Qed.

(** ** Argument validation *)

Lemma py_int_raises s base e : py_int s base = Raise e -> e = ValueError.
Proof.
  unfold py_int. destruct (parse_int s base); [discriminate|].
  intros [= <-]. reflexivity.
Qed.

(** A conversion with [int] either succeeds or is a usage error. *)
Lemma convert_int arg :
  (exists v, convert (fun s => py_int s 10) arg = Ok v)
  \/ convert (fun s => py_int s 10) arg = Raise (SystemExit 2).
Proof.
  destruct arg as [s|]; simpl; [|left; eexists; reflexivity].
  destruct (py_int s 10) as [v|e] eqn:Hint; [left; eexists; reflexivity|].
  apply py_int_raises in Hint. subst e. right. reflexivity.
Qed.

Lemma hex_string_32bit_long s :
  (8 < String.length s)%nat -> hex_string_32bit s = Raise ValueError.
Proof.
  intros Hlen. unfold hex_string_32bit.
  destruct (Nat.ltb 8 (String.length s)) eqn:Hlt; [reflexivity|].
  apply Nat.ltb_ge in Hlt. lia.
Qed.

Lemma hex_string_32bit_short s :
  (String.length s <= 8)%nat -> hex_string_32bit s = py_int s 16.
Proof.
  intros Hlen. unfold hex_string_32bit.
  destruct (Nat.ltb 8 (String.length s)) eqn:Hlt; [|reflexivity].
  apply Nat.ltb_lt in Hlt. lia.
Qed.

(** C7. For every [--insert] string of more than 8 characters,
    [hex_string_32bit] raises, and the program ends with a usage error
    (status 2) before it opens a file: no file operation is logged, no file
    is changed, nothing is printed on standard output. *)
Theorem long_insert_rejected_before_file_access c w s :
  c_insert c = Some s ->
  (8 < String.length s)%nat ->
  hex_string_32bit s = Raise ValueError
  /\ outcome (main c) w = Raise (SystemExit 2)
  /\ w_log (exec (main c) w) = w_log w
  /\ w_fs (exec (main c) w) = w_fs w
  /\ w_stdout (exec (main c) w) = w_stdout w.
Proof.
  intros Hins Hlen. split; [apply hex_string_32bit_long; exact Hlen|].
  assert (Hrun : main c w = (Raise (SystemExit 2), w)).
  { unfold main, parse_args, bind, lift.
    destruct (convert_int (c_index_random c)) as [[v ->] | ->]; [|reflexivity].
    rewrite Hins. simpl. rewrite (hex_string_32bit_long s Hlen). reflexivity. }
  unfold outcome, exec. rewrite Hrun. simpl. repeat split.
Qed.

Lemma long_insert_rejected_before_file_access_witness :
  hex_string_32bit "cafecafe0" = Raise ValueError
  /\ outcome (main (insert_cmdline "cafecafe0" "-8")) w_zero16
     = Raise (SystemExit 2)
  /\ w_log (exec (main (insert_cmdline "cafecafe0" "-8")) w_zero16) = []
  /\ w_fs (exec (main (insert_cmdline "cafecafe0" "-8")) w_zero16)
     = w_fs w_zero16
  /\ w_stdout (exec (main (insert_cmdline "cafecafe0" "-8")) w_zero16) = [].
Proof.
  apply (long_insert_rejected_before_file_access
           (insert_cmdline "cafecafe0" "-8") w_zero16 "cafecafe0");
    [reflexivity | simpl; lia].
Defined.

(** ** Random values *)

(** C8. In random-insert mode the value drawn lies between 1 and 2^32 - 1,
    whatever the random source gives; it is therefore not zero, and the
    four bytes the patch is run with are not all zero. *)
Theorem random_value_never_zero opts w n :
  Opts.check opts = false ->
  Opts.index_random opts = Some n ->
  n <> 0 ->
  exists v,
    randint 1 (2 ^ 32 - 1) w = (Ok v, next_draw w)
    /\ 1 <= v <= 2 ^ 32 - 1
    /\ v <> 0
    /\ big_endian 4 v <> zeros 4
    /\ do_main opts w
       = patch_file (Opts.filename opts) (Opts.verbose opts) v n (next_draw w).
Proof.
  intros Hcheck Hrandom Hn.
  exists (1 + w_random w (w_drawn w) mod (2 ^ 32 - 1)).
  pose proof (randint_range w) as Hr.
  split; [apply randint_run|]. split; [exact Hr|]. split; [lia|].
  split; [apply big_endian_nonzero; lia|].
  apply do_main_random; assumption.
Qed.

Lemma random_value_never_zero_witness :
  exists v,
    randint 1 (2 ^ 32 - 1) w_zero16 = (Ok v, next_draw w_zero16)
    /\ 1 <= v <= 2 ^ 32 - 1
    /\ v <> 0
    /\ big_endian 4 v <> zeros 4
    /\ do_main (random_opts (-8)) w_zero16
       = patch_file test_zero_bin false v (-8) (next_draw w_zero16).
Proof.
  apply (random_value_never_zero (random_opts (-8)) w_zero16 (-8));
    [reflexivity | reflexivity | lia].
Defined.

(** ** Patching twice *)

(** C9, as stated, fails: patching the 16 zero bytes with 0xCAFECAFE at -1
    succeeds and leaves 19 bytes; doing it again succeeds and leaves 22. *)
Lemma patch_twice_differs_near_end :
  outcome (do_main (insert_opts 0xCAFECAFE (-1))) w_zero16 = Ok tt
  /\ outcome (do_main (insert_opts 0xCAFECAFE (-1))) patched_once = Ok tt
  /\ contents test_zero_bin patched_once
     = Some (zeros 15 ++ [xca; xfe; xca; xfe])
  /\ contents test_zero_bin patched_twice
     = Some (zeros 15 ++ [xca; xfe; xca; xca; xfe; xca; xfe])
  /\ contents test_zero_bin patched_twice <> contents test_zero_bin patched_once.
Proof.
  split; [vm_compute; reflexivity|].
  split; [vm_compute; reflexivity|].
  split; [vm_compute; reflexivity|].
  split; [vm_compute; reflexivity|].
  vm_compute. discriminate.
Qed.

(** C9, as the code has it. With explicit arguments and a position that is
    not -1, -2 or -3, running the program twice leaves the files as running
    it once does (also when the patch does not take place). *)
Theorem patch_twice_same_away_from_end opts w :
  Opts.check opts = false ->
  truthy (Opts.index_random opts) = false ->
  (forall p, Opts.position opts = Some p -> p <= -4 \/ 0 <= p) ->
  w_fs (exec (do_main opts) (exec (do_main opts) w))
  = w_fs (exec (do_main opts) w).
Proof.
  intros Hcheck Hrandom Hpos.
  assert (Hexec : forall w0,
             exec (do_main opts) w0
             = match Opts.insert opts, Opts.position opts with
               | Some v, Some p =>
                   if truthy (Some v) && truthy (Some p)
                   then exec (patch_file (Opts.filename opts)
                                (Opts.verbose opts) v p) w0
                   else w0
               | _, _ => w0
               end).
  { intros w0. unfold exec. rewrite do_main_insert by assumption.
    destruct (Opts.insert opts) as [v|]; [|reflexivity].
    destruct (Opts.position opts) as [p|]; [|reflexivity].
    destruct (truthy (Some v) && truthy (Some p)); reflexivity. }
  rewrite (Hexec (exec (do_main opts) w)), (Hexec w).
  destruct (Opts.insert opts) as [v|]; [|reflexivity].
  destruct (Opts.position opts) as [p|]; [|reflexivity].
  destruct (truthy (Some v) && truthy (Some p)); [|reflexivity].
  apply patch_file_twice. apply Hpos. reflexivity.
Qed.

Lemma patch_twice_same_away_from_end_witness :
  w_fs (exec (do_main (insert_opts 0xCAFECAFE (-8)))
          (exec (do_main (insert_opts 0xCAFECAFE (-8))) w_zero16))
  = w_fs (exec (do_main (insert_opts 0xCAFECAFE (-8))) w_zero16).
Proof.
  apply (patch_twice_same_away_from_end (insert_opts 0xCAFECAFE (-8)) w_zero16);
    [reflexivity | reflexivity |].
  intros p [= <-]. left. lia.
Defined.

(** ** Values the validator lets through *)

Lemma main_parsed c w v p :
  c_index_random c = None ->
  convert hex_string_32bit (c_insert c) = Ok (Some v) ->
  convert (fun s => py_int s 10) (c_position c) = Ok (Some p) ->
  main c w
  = do_main (Opts.mk (c_filename c) (c_binary c) (c_check c) None
                     (c_verbose c) (Some v) (Some p)) w.
Proof.
  intros Hrandom Hins Hpos. unfold main, parse_args, bind, lift, ret.
  rewrite Hrandom, Hins, Hpos. reflexivity.
Qed.

(** C10. [hex_string_32bit] accepts every string of at most 8 characters
    that [int(s, 16)] accepts, signed and prefixed forms included. When the
    accepted value is negative and comes with a position (not zero, and
    resolving inside the file or after it), parsing succeeds and the
    failure comes later: the file is opened for update, the seek is done,
    and only then the conversion to four unsigned bytes raises
    [OverflowError]; the file is closed unchanged and nothing is printed. *)
Theorem negative_insert_overflows_after_open :
  (forall s, (String.length s <= 8)%nat -> hex_string_32bit s = py_int s 16)
  /\ hex_string_32bit "-1" = Ok (-1)
  /\ hex_string_32bit "+ff" = Ok 255
  /\ hex_string_32bit "0x1f" = Ok 31
  /\ (forall c w s v ps p data,
        c_check c = false ->
        c_index_random c = None ->
        c_insert c = Some s ->
        (String.length s <= 8)%nat ->
        py_int s 16 = Ok v ->
        v < 0 ->
        c_position c = Some ps ->
        py_int ps 10 = Ok p ->
        p <> 0 ->
        contents (c_filename c) w = Some data ->
        0 <= resolve p (length data) ->
        hex_string_32bit s = Ok v
        /\ outcome (main c) w = Raise OverflowError
        /\ w_log (exec (main c) w)
           = w_log w ++ [EvOpen (c_filename c) ModeRWB;
                         EvSeek (c_filename c) (Z.to_nat (resolve p (length data)));
                         EvClose (c_filename c)]
        /\ w_fs (exec (main c) w) = w_fs w
        /\ w_stdout (exec (main c) w) = w_stdout w).
Proof.
  split; [exact hex_string_32bit_short|].
  split; [reflexivity|]. split; [reflexivity|]. split; [reflexivity|].
  intros c w s v ps p data Hcheck Hrandom Hins Hlen Hv Hneg Hpos Hp Hp0
         Hdata Hres.
  assert (Hhex : hex_string_32bit s = Ok v)
    by (rewrite hex_string_32bit_short by exact Hlen; exact Hv).
  split; [exact Hhex|].
  assert (Hrun : main c w
                 = (Raise OverflowError,
                    add_log [EvOpen (c_filename c) ModeRWB;
                             EvSeek (c_filename c)
                               (Z.to_nat (resolve p (length data)));
                             EvClose (c_filename c)] w)).
  { rewrite (main_parsed c w v p Hrandom)
      by (rewrite ?Hins, ?Hpos; simpl; rewrite ?Hhex, ?Hp; reflexivity).
    rewrite do_main_insert by (simpl; auto).
    cbn [Opts.insert Opts.position Opts.filename Opts.verbose].
    assert (Htv : truthy (Some v) = true).
    { simpl. destruct (v =? 0) eqn:E; [lia | reflexivity]. }
    assert (Htp : truthy (Some p) = true).
    { simpl. destruct (p =? 0) eqn:E; [lia | reflexivity]. }
    rewrite Htv, Htp. simpl andb. cbv iota.
    rewrite patch_file_run. unfold contents in Hdata. rewrite Hdata. cbn zeta.
    destruct (resolve p (length data) <? 0) eqn:Hlt; [lia|].
    rewrite (to_bytes_negative v 4 Hneg). reflexivity. }
  unfold outcome, exec. rewrite Hrun. simpl. repeat split.
Qed.

(** [crc32.py --insert -1 --position -8 test-zero.bin]. *)
Lemma negative_insert_overflows_after_open_witness :
  hex_string_32bit "-1" = Ok (-1)
  /\ outcome (main (insert_cmdline "-1" "-8")) w_zero16 = Raise OverflowError
  /\ w_log (exec (main (insert_cmdline "-1" "-8")) w_zero16)
     = [EvOpen test_zero_bin ModeRWB; EvSeek test_zero_bin 8;
        EvClose test_zero_bin]
  /\ w_fs (exec (main (insert_cmdline "-1" "-8")) w_zero16) = w_fs w_zero16
  /\ w_stdout (exec (main (insert_cmdline "-1" "-8")) w_zero16) = [].
Proof.
  apply (proj2 (proj2 (proj2 (proj2 negative_insert_overflows_after_open)))
           (insert_cmdline "-1" "-8") w_zero16 "-1" (-1) "-8" (-8) (zeros 16));
    try reflexivity; try lia.
  - simpl. lia.
  - vm_compute. discriminate.
Defined.

(** * Further properties of the code *)

(** ** The read loop *)

(** With a chunk size of 0 the first read is empty and the loop ends at
    once: [crc32] returns 0 whatever the file holds, having read nothing. *)
Theorem crc32_chunksize_zero filename w data :
  contents filename w = Some data ->
  crc32 filename 0 w
  = (Ok 0, add_log [EvOpen filename ModeRB; EvRead filename 0 0;
                    EvClose filename] w).
Proof.
  unfold contents. intros Hdata. unfold crc32, with_open, open_.
  rewrite Hdata. rewrite crc32_loop_step. unfold read. simpl.
  rewrite Hdata. simpl.
  rewrite !log_event_add_log, !add_log_add_log. reflexivity.
Qed.

Lemma crc32_chunksize_zero_witness :
  crc32 test_zero_bin 0 w_zero16
  = (Ok 0, add_log [EvOpen test_zero_bin ModeRB; EvRead test_zero_bin 0 0;
                    EvClose test_zero_bin] w_zero16)
  /\ Standard.crc32 (zeros 16) <> 0.
Proof.
  split; [apply (crc32_chunksize_zero test_zero_bin w_zero16 (zeros 16)); reflexivity|].
  vm_compute. discriminate.
Defined.

(** Of the negative chunk sizes only -1 is one [read] accepts. With -1
    the first read takes the whole file: [crc32] returns the standard
    CRC-32 after that one read and the empty read that ends the loop (the
    empty read alone for an empty file). With a chunk size of -2 or less
    the first [read] raises [ValueError]: the file has been opened, nothing
    is read from it, and it is closed on the way out. *)
Theorem crc32_negative_chunksize filename chunksize w data :
  contents filename w = Some data ->
  (chunksize = -1 ->
   crc32 filename chunksize w
   = (Ok (Standard.crc32 data),
      add_log (EvOpen filename ModeRB
               :: match data with
                  | [] => [EvRead filename 0 0]
                  | _ :: _ => [EvRead filename 0 (length data);
                               EvRead filename (length data) 0]
                  end ++ [EvClose filename]) w))
  /\ (chunksize <= -2 ->
      crc32 filename chunksize w
      = (Raise ValueError,
         add_log [EvOpen filename ModeRB; EvClose filename] w)).
Proof.
  unfold contents. intros Hdata. split.
  - intros ->. unfold crc32, with_open, open_.
    rewrite Hdata. rewrite crc32_loop_step. unfold read. simpl w_fs.
    simpl f_name. simpl f_pos. rewrite Hdata.
    change (-1 <? -1) with false. change (-1 =? -1) with true. cbv iota.
    rewrite drop_0. destruct data as [|b data].
    + simpl. rewrite !log_event_add_log, !add_log_add_log. reflexivity.
    + rewrite crc32_loop_step. unfold read. simpl w_fs. simpl f_name.
      simpl f_pos. rewrite Hdata.
      change (-1 <? -1) with false. change (-1 =? -1) with true. cbv iota.
      change (S (length data)) with (length (b :: data)).
      rewrite drop_all. rewrite crc32_standard. simpl.
      rewrite !log_event_add_log, !add_log_add_log. reflexivity.
  - intros Hlow. unfold crc32, with_open, open_.
    rewrite Hdata. rewrite crc32_loop_step. unfold read.
    replace (chunksize <? -1) with true by (symmetry; apply Z.ltb_lt; lia).
    simpl. rewrite !log_event_add_log, !add_log_add_log. reflexivity.
Qed.

Lemma crc32_negative_chunksize_witness :
  crc32 test_zero_bin (-1) w_zero16
  = (Ok (Standard.crc32 (zeros 16)),
     add_log [EvOpen test_zero_bin ModeRB; EvRead test_zero_bin 0 16;
              EvRead test_zero_bin 16 0; EvClose test_zero_bin] w_zero16)
  /\ crc32 test_zero_bin (-2) w_zero16
     = (Raise ValueError,
        add_log [EvOpen test_zero_bin ModeRB; EvClose test_zero_bin] w_zero16).
Proof.
  split.
  - apply (proj1 (crc32_negative_chunksize test_zero_bin (-1) w_zero16 (zeros 16)
                    eq_refl)).
    reflexivity.
  - apply (proj2 (crc32_negative_chunksize test_zero_bin (-2) w_zero16 (zeros 16)
                    eq_refl)).
    lia.
Defined.

(** Number of reads a file of [n] bytes takes with chunks of [c] bytes:
    one per chunk, full or not, and the empty one at the end. *)
Lemma reads_count_step (n c : nat) :
  (1 <= c)%nat -> (1 <= n)%nat ->
  S ((n - Nat.min c n + c - 1) / c) = ((n + c - 1) / c)%nat.
Proof.
  intros Hc Hn. destruct (le_lt_dec n c) as [Hle|Hgt].
  - rewrite Nat.min_r by lia.
    replace (n - n + c - 1)%nat with (c - 1)%nat by lia.
    rewrite Nat.div_small by lia.
    apply (Nat.div_unique _ _ 1%nat (n - 1)%nat); lia.
  - rewrite Nat.min_l by lia.
    replace (n + c - 1)%nat with ((n - c + c - 1) + 1 * c)%nat by lia.
    rewrite Nat.div_add by lia. lia.
Qed.

Lemma crc32_loop_reads n :
  forall chunksize f checksum w data,
    w_fs w !! f_name f = Some data ->
    (length data - f_pos f)%nat = n ->
    (f_pos f <= length data)%nat ->
    1 <= chunksize ->
    exists evs,
      snd (crc32_loop chunksize f checksum w) = add_log evs w
      /\ reads_from (f_name f) (f_pos f) (Z.to_nat chunksize) evs
         = Some (length data)
      /\ length evs = S ((n + Z.to_nat chunksize - 1) / Z.to_nat chunksize).
Proof.
  induction n as [n IH] using lt_wf_ind.
  intros chunksize f checksum w data Hdata Hn Hpos Hchunk.
  rewrite crc32_loop_step. unfold read.
  replace (chunksize <? -1) with false by (symmetry; apply Z.ltb_ge; lia).
  rewrite Hdata.
  replace (chunksize =? -1) with false by (symmetry; apply Z.eqb_neq; lia).
  set (c := Z.to_nat chunksize). assert (Hc : (1 <= c)%nat) by lia.
  assert (Hlen : length (take c (drop (f_pos f) data)) = Nat.min c n).
  { rewrite length_take, length_drop. lia. }
  destruct (take c (drop (f_pos f) data)) as [|b chunk] eqn:Htake.
  - simpl in Hlen. assert (Hn0 : n = 0%nat) by lia.
    exists [EvRead (f_name f) (f_pos f) 0]. simpl.
    split; [reflexivity|]. rewrite String.eqb_refl, Nat.eqb_refl. simpl.
    split; [f_equal; lia|].
    subst n. rewrite Hn0. simpl. rewrite Nat.div_small by lia. reflexivity.
  - set (k := length (b :: chunk)) in *.
    assert (Hk : (1 <= k)%nat) by (unfold k; simpl; lia).
    destruct (IH (n - k)%nat ltac:(lia) chunksize
                (set_pos (f_pos f + k) f)
                (Zlib.crc32 (b :: chunk) checksum)
                (log_event (EvRead (f_name f) (f_pos f) k) w) data)
      as [evs [Hlog [Hreads Hcount]]];
      [exact Hdata | simpl; lia | simpl; lia | exact Hchunk |].
    exists (EvRead (f_name f) (f_pos f) k :: evs).
    split; [rewrite Hlog, log_event_add_log, add_log_add_log; reflexivity|].
    split.
    + cbn [reads_from]. rewrite String.eqb_refl, Nat.eqb_refl.
      assert (Hle : Nat.leb k c = true) by (apply Nat.leb_le; lia).
      fold c. rewrite Hle. simpl andb. cbv iota. exact Hreads.
    + simpl. rewrite Hcount. fold c. f_equal.
      rewrite Hlen. apply reads_count_step; lia.
Qed.

(** For a chunk size of at least 1, [crc32] goes through the file once:
    it opens it read-only, reads from the start, each read where the one
    before ended and of no more than a chunk, up to the end of the file,
    and closes it. A file of [n] bytes takes one read per chunk, the last
    one possibly short, and one empty read. *)
Theorem crc32_reads_file_once filename chunksize w data :
  contents filename w = Some data ->
  1 <= chunksize ->
  exists reads,
    w_log (exec (crc32 filename chunksize) w)
    = w_log w ++ EvOpen filename ModeRB :: reads ++ [EvClose filename]
    /\ reads_from filename 0 (Z.to_nat chunksize) reads = Some (length data)
    /\ length reads
       = S ((length data + Z.to_nat chunksize - 1) / Z.to_nat chunksize).
Proof.
  unfold contents. intros Hdata Hchunk.
  destruct (crc32_loop_reads (length data - 0)%nat chunksize
              (FileObj filename ModeRB 0) 0
              (log_event (EvOpen filename ModeRB) w) data)
    as [evs [Hlog [Hreads Hcount]]];
    [exact Hdata | reflexivity | simpl; lia | exact Hchunk |].
  exists evs. simpl in Hreads. rewrite Nat.sub_0_r in Hcount.
  split; [|split; [exact Hreads | exact Hcount]].
  unfold exec, crc32, with_open, open_. rewrite Hdata.
  destruct (crc32_loop chunksize (FileObj filename ModeRB 0) 0
              (log_event (EvOpen filename ModeRB) w)) as [r w2] eqn:Hrun.
  simpl in Hlog. subst w2. simpl. rewrite <- !app_assoc. reflexivity.
Qed.

Lemma crc32_reads_file_once_witness :
  exists reads,
    w_log (exec (crc32 test_zero_bin 5) w_zero16)
    = w_log w_zero16 ++ EvOpen test_zero_bin ModeRB
                     :: reads ++ [EvClose test_zero_bin]
    /\ reads_from test_zero_bin 0 (Z.to_nat 5) reads = Some (length (zeros 16))
    /\ length reads = S ((length (zeros 16) + Z.to_nat 5 - 1) / Z.to_nat 5).
Proof.
  apply (crc32_reads_file_once test_zero_bin 5 w_zero16 (zeros 16));
    [reflexivity | lia].
Defined.

(** ** The dispatcher, mode by mode *)

Lemma truthy_nonzero n : n <> 0 -> truthy (Some n) = true.
Proof. intros Hn. simpl. destruct (n =? 0) eqn:E; [lia | reflexivity]. Qed.

Lemma truthy_some n : truthy (Some n) = true -> n <> 0.
Proof. simpl. destruct (n =? 0) eqn:E; [discriminate | lia]. Qed.

(** Without [--check], the run is the patch the options select, or nothing. *)
Lemma do_main_patch_modes opts w :
  Opts.check opts = false ->
  do_main opts w =
  match Opts.index_random opts with
  | Some n =>
      if truthy (Some n)
      then patch_file (Opts.filename opts) (Opts.verbose opts)
             (1 + w_random w (w_drawn w) mod (2 ^ 32 - 1)) n (next_draw w)
      else match explicit_patch opts with
           | Some (v, p) =>
               patch_file (Opts.filename opts) (Opts.verbose opts) v p w
           | None => (Ok tt, w)
           end
  | None =>
      match explicit_patch opts with
      | Some (v, p) => patch_file (Opts.filename opts) (Opts.verbose opts) v p w
      | None => (Ok tt, w)
      end
  end.
Proof.
  intros Hcheck.
  assert (Hexplicit : truthy (Opts.index_random opts) = false ->
            do_main opts w =
            match explicit_patch opts with
            | Some (v, p) =>
                patch_file (Opts.filename opts) (Opts.verbose opts) v p w
            | None => (Ok tt, w)
            end).
  { intros Hrandom. rewrite do_main_insert by assumption.
    unfold explicit_patch.
    destruct (Opts.insert opts) as [v|]; [|reflexivity].
    destruct (Opts.position opts) as [p|]; [|reflexivity].
    destruct (truthy (Some v) && truthy (Some p)); reflexivity. }
  destruct (Opts.index_random opts) as [n|] eqn:Hrandom.
  - destruct (truthy (Some n)) eqn:Hn.
    + apply do_main_random; [assumption | assumption |].
      apply truthy_some. exact Hn.
    + apply Hexplicit. reflexivity.
  - apply Hexplicit. reflexivity.
Qed.

(** What [patch_file] logs is bracketed, and it opens the file whenever
    there is one. *)
Lemma patch_file_log name verbose v p w :
  exists evs,
    w_log (exec (patch_file name verbose v p) w) = w_log w ++ evs
    /\ bracketed name evs.
Proof.
  unfold exec. rewrite patch_file_run.
  destruct (w_fs w !! name) as [data|]; cbn zeta.
  - destruct (resolve p (length data) <? 0).
    + eexists. split; [reflexivity|]. right. exists ModeRWB, []. split; reflexivity.
    + destruct (to_bytes v 4) as [be|e].
      * eexists. split; [reflexivity|]. right.
        exists ModeRWB, [EvSeek name (Z.to_nat (resolve p (length data)));
                         EvWrite name (Z.to_nat (resolve p (length data))) be].
        split; [reflexivity|]. simpl. rewrite !String.eqb_refl. reflexivity.
      * eexists. split; [reflexivity|]. right.
        exists ModeRWB, [EvSeek name (Z.to_nat (resolve p (length data)))].
        split; [reflexivity|]. simpl. rewrite !String.eqb_refl. reflexivity.
  - exists []. split; [symmetry; apply app_nil_r | left; reflexivity].
Qed.

Lemma patch_file_opens name verbose v p w data :
  w_fs w !! name = Some data ->
  exists rest,
    w_log (exec (patch_file name verbose v p) w)
    = w_log w ++ EvOpen name ModeRWB :: rest.
Proof.
  intros Hdata. unfold exec. rewrite patch_file_run, Hdata. cbn zeta.
  destruct (resolve p (length data) <? 0); [eexists; reflexivity|].
  destruct (to_bytes v 4); eexists; reflexivity.
Qed.

(** A truthy [--insert-random-at] overrides [--insert] and [--position]:
    whatever these are, the run is the same. *)
Theorem random_insert_overrides_explicit opts w n ins pos :
  Opts.check opts = false ->
  Opts.index_random opts = Some n ->
  n <> 0 ->
  do_main (Opts.set_insert ins (Opts.set_position pos opts)) w = do_main opts w.
Proof.
  intros Hcheck Hrandom Hn.
  rewrite (do_main_random opts w n) by assumption.
  rewrite (do_main_random _ w n) by (destruct opts; assumption).
  destruct opts. reflexivity.
Qed.

Lemma random_insert_overrides_explicit_witness :
  do_main (Opts.set_insert (Some 0xCAFECAFE)
             (Opts.set_position (Some 4) (random_opts (-8)))) w_zero16
  = do_main (random_opts (-8)) w_zero16.
Proof.
  apply (random_insert_overrides_explicit (random_opts (-8)) w_zero16 (-8));
    [reflexivity | reflexivity | lia].
Defined.

Lemma mode_selected_false opts :
  mode_selected opts = false ->
  Opts.check opts = false
  /\ truthy (Opts.index_random opts) = false
  /\ explicit_patch opts = None.
Proof.
  unfold mode_selected, patch_selected, explicit_patch. intros H.
  apply orb_false_iff in H. destruct H as [Hc H].
  apply orb_false_iff in H. destruct H as [Hr He].
  split; [exact Hc|]. split; [exact Hr|].
  destruct (Opts.insert opts) as [v|]; [|reflexivity].
  destruct (Opts.position opts) as [p|]; [|reflexivity].
  cbn [truthy] in *. rewrite He. reflexivity.
Qed.

Lemma explicit_patch_some opts v p :
  explicit_patch opts = Some (v, p) ->
  Opts.insert opts = Some v /\ Opts.position opts = Some p
  /\ v <> 0 /\ p <> 0.
Proof.
  unfold explicit_patch.
  destruct (Opts.insert opts) as [v'|]; [|discriminate].
  destruct (Opts.position opts) as [p'|]; [|discriminate].
  destruct (truthy (Some v') && truthy (Some p')) eqn:Ht; [|discriminate].
  intros [= <- <-]. apply andb_true_iff in Ht. destruct Ht as [Hv Hp].
  repeat split; auto using truthy_some.
Qed.

(** When no mode is selected (no [--check], no truthy
    [--insert-random-at], and [--insert] or [--position] missing or zero)
    the run does nothing at all and succeeds; when one is selected and the
    file exists, the file is opened. *)
Theorem nothing_selected_nothing_done opts w :
  (mode_selected opts = false -> do_main opts w = (Ok tt, w))
  /\ (forall data,
        mode_selected opts = true ->
        contents (Opts.filename opts) w = Some data ->
        exists mode rest,
          w_log (exec (do_main opts) w)
          = w_log w ++ EvOpen (Opts.filename opts) mode :: rest).
Proof.
  split.
  - intros Hnone. apply mode_selected_false in Hnone.
    destruct Hnone as (Hcheck & Hrandom & Hexplicit).
    rewrite do_main_patch_modes by exact Hcheck.
    destruct (Opts.index_random opts) as [n|];
      [rewrite Hrandom|]; rewrite Hexplicit; reflexivity.
  - intros data Hsel Hdata. unfold contents in Hdata.
    destruct (Opts.check opts) eqn:Hcheck.
    + destruct (do_main_check opts w data Hcheck Hdata) as [evs [_ Hrun]].
      unfold exec. rewrite Hrun. simpl.
      exists ModeRB, (evs ++ [EvClose (Opts.filename opts)]). reflexivity.
    + unfold exec. rewrite do_main_patch_modes by exact Hcheck.
      unfold mode_selected, patch_selected in Hsel. rewrite Hcheck in Hsel.
      simpl in Hsel.
      assert (Hexplicit : truthy (Opts.index_random opts) = false ->
                exists v p, explicit_patch opts = Some (v, p)).
      { intros Hr. rewrite Hr in Hsel. simpl in Hsel. unfold explicit_patch.
        destruct (Opts.insert opts) as [v|]; [|discriminate].
        destruct (Opts.position opts) as [p|];
          [|rewrite andb_false_r in Hsel; discriminate].
        cbn [truthy] in *. rewrite Hsel. eauto. }
      destruct (Opts.index_random opts) as [n|].
      * destruct (truthy (Some n)) eqn:Hn.
        -- destruct (patch_file_opens (Opts.filename opts) (Opts.verbose opts)
                       (1 + w_random w (w_drawn w) mod (2 ^ 32 - 1)) n
                       (next_draw w) data Hdata) as [rest Hlog].
           exists ModeRWB, rest. exact Hlog.
        -- destruct (Hexplicit eq_refl) as (v & p & ->).
           destruct (patch_file_opens (Opts.filename opts) (Opts.verbose opts)
                       v p w data Hdata) as [rest Hlog].
           exists ModeRWB, rest. exact Hlog.
      * destruct (Hexplicit eq_refl) as (v & p & ->).
        destruct (patch_file_opens (Opts.filename opts) (Opts.verbose opts)
                    v p w data Hdata) as [rest Hlog].
        exists ModeRWB, rest. exact Hlog.
Qed.

Lemma nothing_selected_nothing_done_witness :
  do_main (Opts.mk test_zero_bin false false None true (Some 0xCAFECAFE) None)
    w_zero16
  = (Ok tt, w_zero16)
  /\ exists mode rest,
       w_log (exec (do_main (insert_opts 0xCAFECAFE (-8))) w_zero16)
       = w_log w_zero16 ++ EvOpen test_zero_bin mode :: rest.
Proof.
  split.
  - apply (proj1 (nothing_selected_nothing_done
                    (Opts.mk test_zero_bin false false None true
                             (Some 0xCAFECAFE) None) w_zero16)).
    reflexivity.
  - apply (proj2 (nothing_selected_nothing_done
                    (insert_opts 0xCAFECAFE (-8)) w_zero16) (zeros 16));
      reflexivity.
Defined.

(** ** Files are opened once and always closed *)

(** Reads that follow one another on [name] are on [name], and are
    neither an opening nor a closing. *)
Lemma reads_from_named name bound evs : forall pos k,
  reads_from name pos bound evs = Some k ->
  forallb (fun e => negb (open_or_close e) && String.eqb (event_name e) name) evs
  = true.
Proof.
  induction evs as [|e evs IH]; intros pos k Hreads; [reflexivity|].
  destruct e as [n m|n q count|n q|n q d|n]; try discriminate Hreads.
  cbn [reads_from] in Hreads.
  destruct (String.eqb n name) eqn:Hname; [|discriminate Hreads].
  destruct (Nat.eqb q pos); [|discriminate Hreads].
  destruct (Nat.leb count bound); [|discriminate Hreads].
  cbn [andb] in Hreads. cbn [forallb open_or_close event_name negb andb].
  rewrite Hname. cbn [andb]. exact (IH _ _ Hreads).
Qed.

(** The log of [crc32] on a file that exists: the opening, reads of that
    file one after the other, the closing. *)
Lemma crc32_log filename chunksize w data :
  w_fs w !! filename = Some data ->
  1 <= chunksize ->
  exists reads,
    w_log (exec (crc32 filename chunksize) w)
    = w_log w ++ EvOpen filename ModeRB :: reads ++ [EvClose filename]
    /\ reads_from filename 0 (Z.to_nat chunksize) reads = Some (length data).
Proof.
  intros Hdata Hchunk.
  destruct (crc32_loop_reads (length data - 0)%nat chunksize
              (FileObj filename ModeRB 0) 0
              (log_event (EvOpen filename ModeRB) w) data)
    as [evs [Hlog [Hreads _]]];
    [exact Hdata | reflexivity | simpl; lia | exact Hchunk |].
  exists evs. simpl in Hreads. split; [|exact Hreads].
  unfold exec, crc32, with_open, open_. rewrite Hdata.
  destruct (crc32_loop chunksize (FileObj filename ModeRB 0) 0
              (log_event (EvOpen filename ModeRB) w)) as [r w2] eqn:Hrun.
  simpl in Hlog. subst w2. simpl. rewrite <- !app_assoc. reflexivity.
Qed.

(** With [--check], what a run logs is what [crc32] logs. *)
Lemma do_main_check_log opts w :
  Opts.check opts = true ->
  w_log (exec (do_main opts) w)
  = w_log (exec (crc32 (Opts.filename opts) 65536) w).
Proof.
  intros Hcheck. unfold exec, do_main. rewrite Hcheck. unfold bind at 1.
  destruct (crc32 (Opts.filename opts) 65536 w) as [[answer|e] w1];
    [|reflexivity].
  unfold bind, lift, print, stdout_buffer_write, ret.
  destruct (Opts.verbose opts), (Opts.binary opts), (to_bytes answer 4);
    reflexivity.
Qed.

(** Whatever the options and the world, a run operates on no file but
    the one it is given: it logs nothing at all, or the opening of that
    file, then operations on that file alone, none of them an opening or
    a closing, and its closing last, also when the run fails after the
    opening. *)
Theorem file_is_opened_once_and_closed opts w :
  exists evs,
    w_log (exec (do_main opts) w) = w_log w ++ evs
    /\ bracketed (Opts.filename opts) evs
    /\ forallb (fun e => String.eqb (event_name e) (Opts.filename opts)) evs
       = true.
Proof.
  assert (Hnames : forall evs,
             bracketed (Opts.filename opts) evs ->
             forallb (fun e => String.eqb (event_name e) (Opts.filename opts)) evs
             = true).
  { intros evs [->|(mode & body & -> & Hbody)]; [reflexivity|].
    cbn [forallb event_name]. rewrite String.eqb_refl. cbn [andb].
    rewrite forallb_app. cbn [forallb event_name].
    rewrite String.eqb_refl. cbn [andb]. rewrite andb_true_r.
    apply forallb_forall. intros e He.
    rewrite forallb_forall in Hbody. specialize (Hbody e He).
    apply andb_true_iff in Hbody. tauto. }
  assert (Hmain : exists evs,
             w_log (exec (do_main opts) w) = w_log w ++ evs
             /\ bracketed (Opts.filename opts) evs).
  { destruct (Opts.check opts) eqn:Hcheck.
    - rewrite (do_main_check_log opts w Hcheck).
      destruct (w_fs w !! Opts.filename opts) as [data|] eqn:Hdata.
      + destruct (crc32_log (Opts.filename opts) 65536 w data Hdata)
          as [reads [Hlog Hreads]]; [lia|].
        eexists. split; [exact Hlog|]. right. exists ModeRB, reads.
        split; [reflexivity|]. exact (reads_from_named _ _ _ _ _ Hreads).
      + unfold exec. rewrite (crc32_missing _ _ _ Hdata). simpl.
        exists []. split; [symmetry; apply app_nil_r | left; reflexivity].
    - unfold exec. rewrite do_main_patch_modes by exact Hcheck.
      assert (Hnone : exists evs : list file_event,
                 w_log (Ok tt, w).2 = w_log w ++ evs
                 /\ bracketed (Opts.filename opts) evs).
      { exists []. split; [symmetry; apply app_nil_r | left; reflexivity]. }
      destruct (Opts.index_random opts) as [n|].
      + destruct (truthy (Some n)).
        * apply (patch_file_log (Opts.filename opts) (Opts.verbose opts) _ n
                   (next_draw w)).
        * destruct (explicit_patch opts) as [[v p]|]; [|exact Hnone].
          apply patch_file_log.
      + destruct (explicit_patch opts) as [[v p]|]; [|exact Hnone].
        apply patch_file_log. }
  destruct Hmain as [evs [Hlog Hbr]]. exists evs. auto.
Qed.

(** ** Failures *)




(** A run fails for a missing file exactly when the file is missing and a
    mode is selected; it then has not logged any file operation. *)
Theorem missing_file_is_reported opts w :
  (outcome (do_main opts) w = Raise FileNotFoundError
   <-> contents (Opts.filename opts) w = None /\ mode_selected opts = true)
  /\ (outcome (do_main opts) w = Raise FileNotFoundError ->
      w_log (exec (do_main opts) w) = w_log w).
Proof.
  unfold contents, outcome, exec.
  assert (Hpatch : forall v p w0,
             w_fs w0 = w_fs w -> w_log w0 = w_log w ->
             ((patch_file (Opts.filename opts) (Opts.verbose opts) v p w0).1
              = Raise FileNotFoundError
              <-> w_fs w !! Opts.filename opts = None)
             /\ ((patch_file (Opts.filename opts) (Opts.verbose opts) v p w0).1
                 = Raise FileNotFoundError ->
                 w_log (patch_file (Opts.filename opts) (Opts.verbose opts)
                          v p w0).2 = w_log w)).
  { intros v p w0 Hfs Hlog. rewrite patch_file_run, Hfs.
    destruct (w_fs w !! Opts.filename opts) as [data|]; cbn zeta.
    - destruct (resolve p (length data) <? 0);
        [simpl; split; [split; discriminate | discriminate]|].
      unfold to_bytes. destruct (v <? 0);
        [simpl; split; [split; discriminate | discriminate]|].
      destruct (256 ^ Z.of_nat 4 <=? v);
        simpl; split; try split; discriminate.
    - simpl. split; [split; auto | auto]. }
  destruct (Opts.check opts) eqn:Hcheck.
  - unfold mode_selected. rewrite Hcheck. simpl.
    destruct (w_fs w !! Opts.filename opts) as [data|] eqn:Hdata.
    + destruct (do_main_check opts w data Hcheck Hdata) as [evs [_ Hrun]].
      rewrite Hrun. simpl. split; [split; [discriminate | intros [? _]; discriminate]|].
      discriminate.
    + rewrite (do_main_check_missing opts w Hcheck Hdata). simpl.
      split; [split; auto | auto].
  - rewrite do_main_patch_modes by exact Hcheck.
    unfold mode_selected, patch_selected. rewrite Hcheck. simpl orb.
    destruct (Opts.index_random opts) as [n|] eqn:Hrandom.
    + destruct (truthy (Some n)) eqn:Hn.
      * simpl orb.
        destruct (Hpatch (1 + w_random w (w_drawn w) mod (2 ^ 32 - 1)) n
                    (next_draw w) eq_refl eq_refl) as [Hiff Hlog].
        split; [|exact Hlog]. rewrite Hiff. tauto.
      * simpl orb. unfold explicit_patch.
        destruct (Opts.insert opts) as [v|];
          [|simpl; split; [split; [discriminate | intros [_ ?]; discriminate]
                          | discriminate]].
        destruct (Opts.position opts) as [p|];
          [|rewrite andb_false_r; simpl;
            split; [split; [discriminate | intros [_ ?]; discriminate]
                   | discriminate]].
        destruct (truthy (Some v) && truthy (Some p));
          [|simpl; split; [split; [discriminate | intros [_ ?]; discriminate]
                          | discriminate]].
        destruct (Hpatch v p w eq_refl eq_refl) as [Hiff Hlog].
        split; [|exact Hlog]. rewrite Hiff. tauto.
    + simpl orb. unfold explicit_patch.
      destruct (Opts.insert opts) as [v|];
        [|simpl; split; [split; [discriminate | intros [_ ?]; discriminate]
                        | discriminate]].
      destruct (Opts.position opts) as [p|];
        [|rewrite andb_false_r; simpl;
          split; [split; [discriminate | intros [_ ?]; discriminate]
                 | discriminate]].
      destruct (truthy (Some v) && truthy (Some p));
        [|simpl; split; [split; [discriminate | intros [_ ?]; discriminate]
                        | discriminate]].
      destruct (Hpatch v p w eq_refl eq_refl) as [Hiff Hlog].
      split; [|exact Hlog]. rewrite Hiff. tauto.
Qed.

(** [crc32.py -c test-zero.bin] where there is no such file. *)
Lemma missing_file_is_reported_witness :
  outcome (do_main (check_opts false)) w_no_file = Raise FileNotFoundError
  /\ w_log (exec (do_main (check_opts false)) w_no_file) = w_log w_no_file.
Proof.
  assert (H : outcome (do_main (check_opts false)) w_no_file
              = Raise FileNotFoundError).
  { apply (proj1 (missing_file_is_reported (check_opts false) w_no_file)).
    split; reflexivity. }
  split; [exact H|].
  apply (proj2 (missing_file_is_reported (check_opts false) w_no_file)).
  exact H.
Defined.

(** A negative position that reaches before the start of the file is
    refused by the seek: the file has been opened and is closed again
    unchanged, nothing is printed, and the value is not even converted, so
    the error is this one also for a value that would not fit. *)
Theorem position_before_start_is_refused opts w v p data :
  Opts.check opts = false ->
  truthy (Opts.index_random opts) = false ->
  Opts.insert opts = Some v ->
  Opts.position opts = Some p ->
  v <> 0 ->
  contents (Opts.filename opts) w = Some data ->
  Z.of_nat (length data) + p < 0 ->
  do_main opts w
  = (Raise OSError_EINVAL,
     add_log [EvOpen (Opts.filename opts) ModeRWB;
              EvClose (Opts.filename opts)] w).
Proof.
  intros Hcheck Hrandom Hins Hpos Hv Hdata Hbefore. unfold contents in Hdata.
  rewrite do_main_insert by assumption. rewrite Hins, Hpos.
  rewrite (truthy_nonzero v Hv), (truthy_nonzero p) by lia. simpl andb. cbv iota.
  rewrite patch_file_run, Hdata. cbn zeta.
  assert (Hres : resolve p (length data) = Z.of_nat (length data) + p).
  { unfold resolve. destruct (0 <=? p) eqn:E; [lia | reflexivity]. }
  rewrite Hres. destruct (Z.of_nat (length data) + p <? 0) eqn:E; [reflexivity | lia].
Qed.

(** [crc32.py --insert -1 --position -17 test-zero.bin], 16 bytes. *)
Lemma position_before_start_is_refused_witness :
  do_main (insert_opts (-1) (-17)) w_zero16
  = (Raise OSError_EINVAL,
     add_log [EvOpen test_zero_bin ModeRWB; EvClose test_zero_bin] w_zero16).
Proof.
  apply (position_before_start_is_refused (insert_opts (-1) (-17)) w_zero16
           (-1) (-17) (zeros 16));
    try reflexivity; lia.
Defined.

(** ** The size of a patched file *)

(** A patch never shortens the file: the new length is the larger of the
    old length and the end of the four bytes. A patch inside the file
    keeps its length; a patch at or past the end keeps all the old bytes
    and puts zeros between them and the value. *)
Theorem patch_never_shrinks name verbose v p w data :
  contents name w = Some data ->
  0 <= v < 2 ^ 32 ->
  0 <= resolve p (length data) ->
  exists data',
    contents name (exec (patch_file name verbose v p) w) = Some data'
    /\ length data'
       = Nat.max (length data) (Z.to_nat (resolve p (length data)) + 4)
    /\ ((Z.to_nat (resolve p (length data)) + 4 <= length data)%nat ->
        length data' = length data)
    /\ ((length data <= Z.to_nat (resolve p (length data)))%nat ->
        data' = data
                  ++ zeros (Z.to_nat (resolve p (length data)) - length data)
                  ++ big_endian 4 v).
Proof.
  unfold contents. intros Hdata Hv Hres. unfold exec.
  rewrite patch_file_run, Hdata. cbn zeta.
  destruct (resolve p (length data) <? 0) eqn:Hneg; [lia|].
  rewrite (to_bytes_32bit v Hv). simpl snd. simpl w_fs.
  set (off := Z.to_nat (resolve p (length data))).
  exists (write_at data off (big_endian 4 v)).
  rewrite lookup_insert_eq. split; [reflexivity|].
  split; [rewrite length_write_at, length_big_endian; reflexivity|].
  split.
  - intros Hin. rewrite length_write_at, length_big_endian. lia.
  - intros Hpast. unfold write_at, padded_prefix, zeros.
    rewrite take_ge by lia. rewrite drop_ge by (rewrite length_big_endian; lia).
    rewrite app_nil_r, <- app_assoc. reflexivity.
Qed.

(** [crc32.py --insert cafecafe --position 18 test-zero.bin], 16 bytes. *)
Lemma patch_never_shrinks_witness :
  exists data',
    contents test_zero_bin
      (exec (patch_file test_zero_bin false 0xCAFECAFE 18) w_zero16)
    = Some data'
    /\ length data' = Nat.max (length (zeros 16)) (Z.to_nat 18 + 4)
    /\ ((Z.to_nat 18 + 4 <= length (zeros 16))%nat ->
        length data' = length (zeros 16))
    /\ ((length (zeros 16) <= Z.to_nat 18)%nat ->
        data' = zeros 16 ++ zeros (Z.to_nat 18 - length (zeros 16))
                  ++ big_endian 4 0xCAFECAFE).
Proof.
  apply (patch_never_shrinks test_zero_bin false 0xCAFECAFE 18 w_zero16 (zeros 16));
    [reflexivity | lia | vm_compute; discriminate].
Defined.

(** ** Hexadecimal text: what [format_08x] writes and what [int] reads *)

Lemma hex_char_cases (P : ascii -> Prop) c :
  hex_char c = true ->
  Forall P (list_ascii_of_string "0123456789abcdef") -> P c.
Proof.
  unfold hex_char. intros Hc HP. apply existsb_exists in Hc.
  destruct Hc as [x [Hin Heq]]. apply Ascii.eqb_eq in Heq. subst x.
  rewrite List.Forall_forall in HP. apply HP. exact Hin.
Qed.

Lemma scan_hex l : forall acc k,
  forallb hex_char l = true ->
  scan_digits 16 false acc k l = Some (hex_value acc l, (k + length l)%nat, []).
Proof.
  induction l as [|c l IH]; intros acc k Hl.
  - simpl. rewrite Nat.add_0_r. reflexivity.
  - simpl in Hl. apply andb_true_iff in Hl. destruct Hl as [Hc Hl].
    revert acc k. pattern c. apply (hex_char_cases _ c Hc).
    simpl list_ascii_of_string.
    repeat (apply List.Forall_cons;
      [intros acc k; cbn -[hex_value Z.mul Z.add digit_value];
       unfold hex_value; cbn [fold_left];
       match goal with
       | |- context [digit_value ?c0] =>
           let v := eval vm_compute in (digit_value c0) in
           change (digit_value c0) with v
       end;
       cbv beta iota;
       match goal with
       | |- context [?a <? 16] =>
           let b := eval vm_compute in (a <? 16) in
           change (a <? 16) with b
       end;
       cbv iota; rewrite IH by exact Hl;
       unfold hex_value; do 2 f_equal; f_equal; lia |]).
    apply List.Forall_nil.
Qed.


Lemma uint_chars_hex d : forallb hex_char (uint_chars d) = true.
Proof.
  unfold uint_chars. induction d; simpl; try exact IHd; reflexivity.
Qed.

Lemma hex_value_acc d : forall acc,
  hex_value (Z.pos acc) (uint_chars d) = Z.pos (Pos.of_hex_uint_acc d acc).
Proof.
  unfold uint_chars, hex_value.
  induction d; intros acc; simpl; try reflexivity;
    rewrite <- IHd; f_equal; lia.
Qed.

Lemma hex_value_uint d :
  hex_value 0 (uint_chars d) = Z.of_N (Pos.of_hex_uint d).
Proof.
  induction d; try (simpl; reflexivity);
    try (unfold uint_chars, hex_value in *; simpl; exact IHd);
    (pose proof (hex_value_acc d) as H; unfold uint_chars, hex_value in *;
     simpl; rewrite <- H; reflexivity).
Qed.

Lemma hex_value_bounds l : forall acc,
  forallb hex_char l = true ->
  hex_value acc l = acc * 16 ^ Z.of_nat (length l) + hex_value 0 l
  /\ 0 <= hex_value 0 l < 16 ^ Z.of_nat (length l).
Proof.
  induction l as [|c l IH]; intros acc Hl.
  - unfold hex_value. simpl. lia.
  - simpl in Hl. apply andb_true_iff in Hl. destruct Hl as [Hc Hl].
    assert (Hd : exists d, digit_value c = Some d /\ 0 <= d < 16).
    { pattern c. apply (hex_char_cases _ c Hc). simpl list_ascii_of_string.
      repeat (apply List.Forall_cons;
              [eexists; split; [vm_compute; reflexivity | lia] |]).
      apply List.Forall_nil. }
    destruct Hd as (d & Hd & Hrange).
    unfold hex_value in *. cbn [fold_left]. rewrite Hd.
    destruct (IH (acc * 16 + d) Hl) as [E1 B1].
    destruct (IH (0 * 16 + d) Hl) as [E2 B2].
    rewrite E1, E2.
    replace (Z.of_nat (length (c :: l))) with (Z.succ (Z.of_nat (length l)))
      by (simpl; lia).
    rewrite Z.pow_succ_r by lia. split; [ring | nia].
Qed.

Lemma to_hex_uint_norm n : Hexadecimal.unorm (N.to_hex_uint n) = N.to_hex_uint n.
Proof.
  rewrite <- HexadecimalN.Unsigned.to_of, HexadecimalN.Unsigned.of_to. reflexivity.
Qed.

Lemma length_uint_chars d : length (uint_chars d) = Hexadecimal.nb_digits d.
Proof.
  unfold uint_chars. induction d; simpl; try (rewrite IHd); reflexivity.
Qed.

Lemma hex_value_cons c l d :
  digit_value c = Some d ->
  forallb hex_char l = true ->
  hex_value 0 (c :: l) = d * 16 ^ Z.of_nat (length l) + hex_value 0 l.
Proof.
  intros Hd Hl. unfold hex_value at 1. cbn [fold_left]. rewrite Hd.
  fold (hex_value (0 * 16 + d) l).
  destruct (hex_value_bounds l (0 * 16 + d) Hl) as [E _]. rewrite E. ring.
Qed.

Lemma norm_digits_bound d (m : nat) :
  Hexadecimal.unorm d = d ->
  hex_value 0 (uint_chars d) < 16 ^ Z.of_nat m ->
  (1 <= m)%nat ->
  (1 <= length (uint_chars d) <= m)%nat.
Proof.
  intros Hnorm Hlt Hm.
  assert (Hcase : forall c d' k,
             uint_chars d = c :: uint_chars d' ->
             digit_value c = Some k -> 1 <= k ->
             (1 <= length (uint_chars d) <= m)%nat).
  { intros c d' k Hchars Hk Hk1. rewrite Hchars in *.
    rewrite (hex_value_cons c _ k Hk (uint_chars_hex d')) in Hlt.
    destruct (hex_value_bounds _ 0 (uint_chars_hex d')) as [_ Hb].
    assert (Hpow : 16 ^ Z.of_nat (length (uint_chars d')) < 16 ^ Z.of_nat m) by nia.
    apply Z.pow_lt_mono_r_iff in Hpow; [|lia|lia]. simpl. lia. }
  destruct d as [|d'|d'|d'|d'|d'|d'|d'|d'|d'|d'|d'|d'|d'|d'|d'|d'];
    try (eapply Hcase; [reflexivity | vm_compute; reflexivity | lia]).
  - discriminate.
  - unfold Hexadecimal.unorm in Hnorm. simpl in Hnorm.
    pose proof (nb_digits_nzhead d') as Hnz.
    destruct (Hexadecimal.nzhead d') eqn:Hhead;
      try (rewrite Hnorm in Hnz; simpl in Hnz; lia).
    injection Hnorm as <-. simpl. lia.
Qed.

Lemma chars_append a b :
  list_ascii_of_string (a +:+ b) = list_ascii_of_string a ++ list_ascii_of_string b.
Proof. induction a as [|c a IH]; simpl; [reflexivity | rewrite IH; reflexivity]. Qed.

Lemma chars_zeros m :
  list_ascii_of_string (String.concat "" (replicate m "0"%string))
  = replicate m "0"%char.
Proof.
  induction m as [|m IH]; [reflexivity|].
  destruct m as [|m]; [reflexivity|].
  change (replicate (S (S m)) "0"%string)
    with ("0"%string :: replicate (S m) "0"%string).
  change (String.concat "" ("0"%string :: replicate (S m) "0"%string))
    with ("0" +:+ "" +:+ String.concat "" (replicate (S m) "0"%string)).
  rewrite !chars_append, IH. reflexivity.
Qed.

Lemma length_chars s : length (list_ascii_of_string s) = String.length s.
Proof. induction s as [|c s IH]; simpl; [reflexivity | rewrite IH; reflexivity]. Qed.

Lemma chars_zfill width s :
  list_ascii_of_string (zfill width s)
  = replicate (width - String.length s) "0"%char ++ list_ascii_of_string s.
Proof. unfold zfill. rewrite chars_append, chars_zeros. reflexivity. Qed.

Lemma hex_digits_chars v :
  list_ascii_of_string (hex_digits v) = uint_chars (N.to_hex_uint (Z.to_N v)).
Proof.
  unfold hex_digits, uint_chars, NilZero.string_of_uint.
  destruct (N.to_hex_uint (Z.to_N v)) eqn:Hd; try reflexivity.
  pose proof (to_hex_uint_norm (Z.to_N v)) as Hn. rewrite Hd in Hn. discriminate.
Qed.

Lemma hex_value_zeros m l :
  hex_value 0 (replicate m "0"%char ++ l) = hex_value 0 l.
Proof.
  induction m as [|m IH]; [reflexivity|].
  simpl. unfold hex_value in *. simpl. exact IH.
Qed.

Lemma forallb_hex_zeros m : forallb hex_char (replicate m "0"%char) = true.
Proof. induction m as [|m IH]; [reflexivity | simpl; exact IH]. Qed.

(** The characters of [format_08x v], for [v] not negative. *)
Lemma format_08x_chars v :
  0 <= v ->
  let l := list_ascii_of_string (format_08x v) in
  forallb hex_char l = true
  /\ hex_value 0 l = v
  /\ (v < 2 ^ 32 -> length l = 8%nat)
  /\ (2 ^ 32 <= v -> (8 < length l)%nat).
Proof.
  intros Hv. unfold format_08x.
  destruct (v <? 0) eqn:Hneg; [lia|]. cbn zeta.
  rewrite chars_zfill, <- length_chars, hex_digits_chars.
  set (d := N.to_hex_uint (Z.to_N v)).
  assert (Hval : hex_value 0 (uint_chars d) = v).
  { rewrite hex_value_uint. unfold d.
    change (Pos.of_hex_uint (N.to_hex_uint (Z.to_N v)))
      with (N.of_hex_uint (N.to_hex_uint (Z.to_N v))).
    rewrite HexadecimalN.Unsigned.of_to. lia. }
  split; [rewrite forallb_app, forallb_hex_zeros, uint_chars_hex; reflexivity|].
  split; [rewrite hex_value_zeros; exact Hval|].
  split.
  - intros Hlt.
    destruct (norm_digits_bound d 8 (to_hex_uint_norm _)) as [H1 H8];
      [rewrite Hval; exact Hlt | lia |].
    rewrite length_app, length_replicate. lia.
  - intros Hge. rewrite length_app, length_replicate.
    destruct (hex_value_bounds _ 0 (uint_chars_hex d)) as [_ Hb].
    rewrite Hval in Hb.
    assert (Hpow : 16 ^ 8 < 16 ^ Z.of_nat (length (uint_chars d)))
      by (change (16 ^ 8) with (2 ^ 32); lia).
    apply Z.pow_lt_mono_r_iff in Hpow; lia.
Qed.


Lemma parse_int_stages s base :
  parse_int s base =
  let '(negative, l) := strip_sign (skip_spaces (list_ascii_of_string s)) in
  let l := strip_prefix base l in
  reject_underscore l
    match scan_digits base false 0 0 l with
    | None => None
    | Some (v, digits, rest) =>
        if Nat.eqb digits 0 then None
        else if (base =? 10) && Nat.ltb int_max_str_digits digits then None
        else
          match skip_spaces rest with
          | [] => Some (if negative then - v else v)
          | _ :: _ => None
          end
    end.
Proof. reflexivity. Qed.

Ltac each_hex_char c Hc :=
  pattern c; apply (hex_char_cases _ c Hc); simpl list_ascii_of_string;
  repeat (apply List.Forall_cons; [|]); [.. | apply List.Forall_nil].

Lemma hex_stages c l :
  hex_char c = true ->
  forallb hex_char l = true ->
  skip_spaces (c :: l) = c :: l
  /\ strip_sign (c :: l) = (false, c :: l)
  /\ strip_prefix 16 (c :: l) = c :: l
  /\ (forall A (x : option A), reject_underscore (c :: l) x = x).
Proof.
  intros Hc Hl.
  assert (H2 : strip_prefix 16 ("0"%char :: l) = "0"%char :: l).
  { destruct l as [|c2 l]; [reflexivity|].
    simpl in Hl. apply andb_true_iff in Hl. destruct Hl as [Hc2 _].
    each_hex_char c2 Hc2; reflexivity. }
  revert H2. each_hex_char c Hc; intros H2;
    (split; [reflexivity|]; split; [reflexivity|];
     split; [first [exact H2 | reflexivity] | reflexivity]).
Qed.

Lemma parse_hex_chars l :
  l <> [] ->
  forallb hex_char l = true ->
  parse_int (string_of_list_ascii l) 16 = Some (hex_value 0 l).
Proof.
  intros Hne Hl. rewrite parse_int_stages, list_ascii_of_string_of_list_ascii.
  pose proof (scan_hex l 0 0%nat Hl) as Hscan.
  destruct l as [|c l]; [congruence|].
  assert (Hl' := Hl). simpl in Hl'. apply andb_true_iff in Hl'.
  destruct Hl' as [Hc Hl1].
  destruct (hex_stages c l Hc Hl1) as (Hs & Hsign & Hprefix & Hus).
  rewrite Hs, Hsign. cbn zeta. rewrite Hprefix, Hus, Hscan.
  reflexivity.
Qed.

Lemma format_08x_parses v :
  0 <= v < 2 ^ 32 ->
  String.length (format_08x v) = 8%nat
  /\ hex_string_32bit (format_08x v) = Ok v.
Proof.
  intros Hv. destruct (format_08x_chars v ltac:(lia)) as (Hhex & Hval & Hlen & _).
  cbn zeta in *. specialize (Hlen ltac:(lia)). rewrite length_chars in Hlen.
  split; [exact Hlen|].
  unfold hex_string_32bit. rewrite Hlen. simpl Nat.ltb. cbv iota.
  unfold py_int.
  rewrite <- (string_of_list_ascii_of_string (format_08x v)).
  rewrite parse_hex_chars; [rewrite Hval; reflexivity | | exact Hhex].
  intros Hnil. rewrite <- length_chars, Hnil in Hlen. discriminate.
Qed.

Lemma length_skip_spaces l : (length (skip_spaces l) <= length l)%nat.
Proof.
  induction l as [|c l IH]; simpl; [lia|].
  destruct (isspace c); simpl; lia.
Qed.

Lemma strip_sign_length l :
  (length (snd (strip_sign l)) + (if fst (strip_sign l) then 1 else 0)
   <= length l)%nat.
Proof.
  destruct l as [|c l]; [simpl; lia|].
  destruct c as [[] [] [] [] [] [] [] []]; simpl; lia.
Qed.

Lemma strip_prefix_length base l : (length (strip_prefix base l) <= length l)%nat.
Proof.
  unfold strip_prefix. destruct (base =? 16); [|lia].
  destruct l as [|c1 l]; [simpl; lia|].
  destruct c1 as [[] [] [] [] [] [] [] []]; try (simpl; lia).
  destruct l as [|c2 l]; [simpl; lia|].
  destruct c2 as [[] [] [] [] [] [] [] []]; try (simpl; lia);
    (destruct l as [|c3 l]; [simpl; lia|];
     destruct c3 as [[] [] [] [] [] [] [] []]; simpl; lia).
Qed.

Lemma reject_underscore_some {A} l (x : option A) v :
  reject_underscore l x = Some v -> x = Some v.
Proof.
  destruct l as [|c l]; [auto|].
  destruct c as [[] [] [] [] [] [] [] []]; simpl; auto; discriminate.
Qed.

Lemma digit_value_nonneg c d : digit_value c = Some d -> 0 <= d.
Proof.
  unfold digit_value.
  repeat match goal with
         | |- context [if ?b then _ else _] => destruct b eqn:?
         end; intros [= <-]; lia.
Qed.

(** What [scan_digits] returns is bounded by the digits it may have read. *)
Lemma scan_digits_bound base l : forall prev acc k v k' rest,
  1 <= base -> 0 <= acc ->
  scan_digits base prev acc k l = Some (v, k', rest) ->
  0 <= v /\ v + 1 <= (acc + 1) * base ^ Z.of_nat (length l).
Proof.
  induction l as [|c l IH]; intros prev acc k v k' rest Hbase Hacc Hscan.
  - simpl in Hscan. destruct prev; [discriminate|].
    injection Hscan as <- _ _. simpl. lia.
  - assert (Hpow : 0 < base ^ Z.of_nat (length l))
      by (apply Z.pow_pos_nonneg; lia).
    replace (Z.of_nat (length (c :: l))) with (Z.succ (Z.of_nat (length l)))
      by (simpl; lia).
    rewrite Z.pow_succ_r by lia.
    assert (Hstop : (if prev then None else Some (acc, k, c :: l))
                    = Some (v, k', rest) ->
                    0 <= v /\ v + 1 <= (acc + 1) * (base * base ^ Z.of_nat (length l))).
    { destruct prev; [discriminate|]. intros [= <- _ _]. nia. }
    simpl in Hscan. destruct (Ascii.eqb c "_").
    + destruct prev; [discriminate|].
      apply IH in Hscan; [|lia|lia]. nia.
    + destruct (digit_value c) as [d|] eqn:Hd; [|apply Hstop; exact Hscan].
      destruct (d <? base) eqn:Hlt; [|apply Hstop; exact Hscan].
      pose proof (digit_value_nonneg c d Hd).
      apply IH in Hscan; [|lia|nia]. nia.
Qed.

Lemma parse_int_bound s base v :
  1 <= base ->
  parse_int s base = Some v ->
  - base ^ Z.of_nat (String.length s - 1) < v < base ^ Z.of_nat (String.length s).
Proof.
  intros Hbase. rewrite parse_int_stages. rewrite <- length_chars.
  pose proof (length_skip_spaces (list_ascii_of_string s)) as H0.
  pose proof (strip_sign_length (skip_spaces (list_ascii_of_string s))) as H1.
  destruct (strip_sign (skip_spaces (list_ascii_of_string s))) as [negative l1].
  simpl fst in H1. simpl snd in H1. cbn zeta.
  pose proof (strip_prefix_length base l1) as H2.
  set (l2 := strip_prefix base l1) in *.
  intros Hparse. apply reject_underscore_some in Hparse.
  destruct (scan_digits base false 0 0 l2) as [[[u digits] rest]|] eqn:Hscan;
    [|discriminate].
  apply scan_digits_bound in Hscan; [|lia|lia].
  destruct (Nat.eqb digits 0); [discriminate|].
  destruct ((base =? 10) && Nat.ltb int_max_str_digits digits); [discriminate|].
  destruct (skip_spaces rest); [|discriminate].
  injection Hparse as <-.
  set (n := length (list_ascii_of_string s)) in *.
  assert (Hmono : forall a b : nat, (a <= b)%nat ->
             base ^ Z.of_nat a <= base ^ Z.of_nat b)
    by (intros a b Hab; apply Z.pow_le_mono_r; lia).
  assert (Hpos : forall a : nat, 0 < base ^ Z.of_nat a)
    by (intros a; apply Z.pow_pos_nonneg; lia).
  pose proof (Hmono (length l2) n ltac:(destruct negative; lia)).
  pose proof (Hpos (n - 1)%nat). pose proof (Hpos n).
  destruct negative.
  - pose proof (Hmono (length l2) (n - 1)%nat ltac:(lia)). lia.
  - lia.
Qed.

(** What the program prints as [%08x] is what [--insert] takes: for a
    32-bit value the text has exactly 8 characters and [hex_string_32bit]
    reads the value back from it; for a value of 2^32 or more the text is
    longer and [hex_string_32bit] refuses it. *)
Theorem printed_value_is_accepted_back v :
  (0 <= v < 2 ^ 32 ->
   String.length (format_08x v) = 8%nat
   /\ hex_string_32bit (format_08x v) = Ok v)
  /\ (2 ^ 32 <= v -> hex_string_32bit (format_08x v) = Raise ValueError).
Proof.
  split; [apply format_08x_parses|].
  intros Hbig. destruct (format_08x_chars v ltac:(lia)) as (_ & _ & _ & Hlen).
  cbn zeta in Hlen. specialize (Hlen Hbig). rewrite length_chars in Hlen.
  apply hex_string_32bit_long. exact Hlen.
Qed.

Lemma printed_value_is_accepted_back_witness :
  (String.length (format_08x 0xCAFE) = 8%nat
   /\ hex_string_32bit (format_08x 0xCAFE) = Ok 0xCAFE)
  /\ hex_string_32bit (format_08x (2 ^ 32)) = Raise ValueError.
Proof.
  split.
  - apply (proj1 (printed_value_is_accepted_back 0xCAFE)). lia.
  - apply (proj2 (printed_value_is_accepted_back (2 ^ 32))). lia.
Defined.

(** Whatever string [hex_string_32bit] accepts, the value is below 2^32
    (and above -2^28, a sign taking one of the 8 characters): of the two
    ways the conversion to four unsigned bytes can fail, only the negative
    one is left, and a value that is not negative always converts. *)
Theorem accepted_value_fits_unless_negative s v :
  hex_string_32bit s = Ok v ->
  - 2 ^ 28 < v < 2 ^ 32
  /\ (0 <= v -> to_bytes v 4 = Ok (big_endian 4 v))
  /\ (v < 0 -> to_bytes v 4 = Raise OverflowError).
Proof.
  unfold hex_string_32bit, py_int.
  destruct (Nat.ltb 8 (String.length s)) eqn:Hlen; [discriminate|].
  apply Nat.ltb_ge in Hlen.
  destruct (parse_int s 16) as [u|] eqn:Hparse; [|discriminate].
  intros [= <-]. apply parse_int_bound in Hparse; [|lia].
  assert (Hhi : 16 ^ Z.of_nat (String.length s) <= 16 ^ 8)
    by (apply Z.pow_le_mono_r; lia).
  assert (Hlo : 16 ^ Z.of_nat (String.length s - 1) <= 16 ^ 7)
    by (apply Z.pow_le_mono_r; lia).
  change (16 ^ 8) with (2 ^ 32) in Hhi. change (16 ^ 7) with (2 ^ 28) in Hlo.
  split; [lia|]. split.
  - intros Hnn. apply to_bytes_32bit. lia.
  - apply to_bytes_negative.
Qed.

Lemma accepted_value_fits_unless_negative_witness :
  - 2 ^ 28 < -0xfffffff < 2 ^ 32
  /\ (0 <= -0xfffffff -> to_bytes (-0xfffffff) 4 = Ok (big_endian 4 (-0xfffffff)))
  /\ (-0xfffffff < 0 -> to_bytes (-0xfffffff) 4 = Raise OverflowError).
Proof.
  apply (accepted_value_fits_unless_negative "-fffffff" (-0xfffffff)).
  reflexivity.
Defined.

(** ** What check mode prints *)

Lemma length_append a b :
  String.length (a +:+ b) = (String.length a + String.length b)%nat.
Proof. induction a as [|c a IH]; [reflexivity | simpl; f_equal; exact IH]. Qed.

Lemma length_check_message filename answer :
  0 <= answer < 2 ^ 32 ->
  String.length (check_message filename answer)
  = (String.length filename + 22)%nat.
Proof.
  intros Hrange. unfold check_message. rewrite !length_append.
  rewrite (proj1 (format_08x_parses answer Hrange)). simpl. lia.
Qed.

(** With [--check] on a file that exists, the terse output carries the
    checksum in full and is the last thing the run writes: with [--raw] it
    is four bytes, written through the buffer, whose big-endian value is
    the checksum, without it a line of exactly 8 characters that
    [hex_string_32bit] reads back as the checksum; before it comes the
    line of [--verbose], if any. On the stream of a run that starts with
    an empty standard output the terse output is all there is without
    [--verbose]; with it, the terse output is last when it is a line or
    when standard output is a terminal or unbuffered, and with [--raw] on
    a pipe or a file the four bytes are first, ahead of the line (for a
    file name of less than 8169 characters). *)
Theorem check_output_encodes_checksum opts w data :
  Opts.check opts = true ->
  contents (Opts.filename opts) w = Some data ->
  0 <= Standard.crc32 data < 2 ^ 32
  /\ exists out,
       w_stdout (exec (do_main opts) w)
       = w_stdout w
           ++ (if Opts.verbose opts
               then [OutText (check_message (Opts.filename opts)
                                (Standard.crc32 data) +:+ newline)]
               else [])
           ++ [out]
       /\ (if Opts.binary opts
           then exists b,
                  out = OutBytes b /\ length b = 4%nat
                  /\ from_bytes b = Standard.crc32 data
           else exists line,
                  out = OutText (line +:+ newline)
                  /\ String.length line = 8%nat
                  /\ hex_string_32bit line = Ok (Standard.crc32 data))
       /\ (w_stdout w = [] ->
           forall mode,
             (Opts.verbose opts = false ->
              stdout_stream mode (w_stdout (exec (do_main opts) w))
              = item_bytes out)
             /\ (Opts.verbose opts = true ->
                 Opts.binary opts = false \/ mode <> BlockBuffered ->
                 stdout_stream mode (w_stdout (exec (do_main opts) w))
                 = list_byte_of_string
                     (check_message (Opts.filename opts) (Standard.crc32 data)
                      +:+ newline)
                     ++ item_bytes out)
             /\ (Opts.verbose opts = true ->
                 Opts.binary opts = true ->
                 mode = BlockBuffered ->
                 Z.of_nat (String.length (Opts.filename opts)) + 23 < chunk_size ->
                 stdout_stream mode (w_stdout (exec (do_main opts) w))
                 = item_bytes out
                     ++ list_byte_of_string
                          (check_message (Opts.filename opts)
                             (Standard.crc32 data) +:+ newline))).
Proof.
  intros Hcheck Hdata. unfold contents in Hdata.
  assert (Hrange : 0 <= Standard.crc32 data < 2 ^ 32).
  { rewrite <- crc32_standard. apply crc32_range. }
  split; [exact Hrange|].
  destruct (do_main_check opts w data Hcheck Hdata) as [evs [_ Hrun]].
  unfold exec. rewrite Hrun. cbn [snd w_stdout].
  eexists. split; [reflexivity|]. split.
  - destruct (Opts.binary opts).
    + eexists. split; [reflexivity|].
      split; [apply length_big_endian | apply from_bytes_big_endian; exact Hrange].
    + eexists. split; [reflexivity|]. apply format_08x_parses. exact Hrange.
  - intros -> mode. cbn [app]. split; [|split].
    + intros ->. cbn [app]. apply stdout_stream_single.
    + intros -> Hwhere. cbn [app]. rewrite stdout_stream_diagnostic.
      destruct (Opts.binary opts); [|reflexivity].
      destruct Hwhere as [Hraw|Hmode]; [discriminate|].
      destruct mode; try reflexivity. contradiction.
    + intros -> -> -> Hshort. cbn [app]. rewrite stdout_stream_diagnostic.
      rewrite (length_check_message _ _ Hrange).
      replace (Z.of_nat (String.length (Opts.filename opts) + 22) + 1 <? chunk_size)
        with true by (symmetry; apply Z.ltb_lt; lia).
      reflexivity.
Qed.

(** [crc32.py -c -v test-zero.bin], and [crc32.py -c -v -r test-zero.bin]
    into a pipe. *)
Lemma check_output_encodes_checksum_witness :
  (0 <= Standard.crc32 (zeros 16) < 2 ^ 32
   /\ exists out,
        w_stdout (exec (do_main (check_opts true)) w_zero16)
        = w_stdout w_zero16
            ++ [OutText (check_message test_zero_bin (Standard.crc32 (zeros 16))
                         +:+ newline)]
            ++ [out]
        /\ exists line,
             out = OutText (line +:+ newline)
             /\ String.length line = 8%nat
             /\ hex_string_32bit line = Ok (Standard.crc32 (zeros 16)))
  /\ exists out,
       (exists b, out = OutBytes b /\ length b = 4%nat
                  /\ from_bytes b = Standard.crc32 (zeros 16))
       /\ stdout_stream BlockBuffered
            (w_stdout (exec (do_main (check_raw_opts true)) w_zero16))
          = item_bytes out
              ++ list_byte_of_string
                   (check_message test_zero_bin (Standard.crc32 (zeros 16))
                    +:+ newline).
Proof.
  split.
  - destruct (check_output_encodes_checksum (check_opts true) w_zero16 (zeros 16)
                eq_refl eq_refl) as (Hrange & out & Hout & Hform & _).
    split; [exact Hrange|]. exists out. split; [exact Hout | exact Hform].
  - destruct (check_output_encodes_checksum (check_raw_opts true) w_zero16
                (zeros 16) eq_refl eq_refl) as (_ & out & _ & Hform & Hstream).
    exists out. split; [exact Hform|].
    apply (Hstream eq_refl BlockBuffered); [reflexivity.. | vm_compute; reflexivity].
Defined.

(** ** What random-insert mode prints *)

(** When [--insert-random-at n] patches the file, the line it prints last
    is the value it wrote: [hex_string_32bit] reads from the line the
    number that the four bytes now at the resolved offset encode, and that
    number is between 1 and 2^32 - 1. *)
Theorem random_insert_prints_what_it_wrote opts w n data :
  Opts.check opts = false ->
  Opts.index_random opts = Some n ->
  n <> 0 ->
  contents (Opts.filename opts) w = Some data ->
  0 <= resolve n (length data) ->
  exists v line diag data',
    outcome (do_main opts) w = Ok tt
    /\ 1 <= v <= 2 ^ 32 - 1
    /\ w_stdout (exec (do_main opts) w)
       = w_stdout w ++ diag ++ [OutText (line +:+ newline)]
    /\ hex_string_32bit line = Ok v
    /\ contents (Opts.filename opts) (exec (do_main opts) w) = Some data'
    /\ from_bytes (read_at data' (Z.to_nat (resolve n (length data))) 4) = v.
Proof.
  intros Hcheck Hrandom Hn Hdata Hres. unfold contents in *.
  pose proof (randint_range w) as Hv.
  set (v := 1 + w_random w (w_drawn w) mod (2 ^ 32 - 1)) in *.
  assert (Hv32 : 0 <= v < 2 ^ 32) by lia.
  exists v, (format_08x v).
  unfold outcome, exec. rewrite (do_main_random opts w n) by assumption.
  fold v. rewrite patch_file_run. simpl w_fs. rewrite Hdata. cbn zeta.
  destruct (resolve n (length data) <? 0) eqn:Hneg; [lia|].
  rewrite (to_bytes_32bit v Hv32). cbn [fst snd w_stdout w_fs next_draw].
  eexists _, _. split; [reflexivity|]. split; [exact Hv|].
  split; [reflexivity|].
  split; [apply format_08x_parses; exact Hv32|].
  rewrite lookup_insert_eq. split; [reflexivity|].
  rewrite <- (length_big_endian 4 v) at 2.
  rewrite read_at_write_at. apply from_bytes_big_endian. exact Hv32.
Qed.

Lemma random_insert_prints_what_it_wrote_witness :
  exists v line diag data',
    outcome (do_main (random_opts (-8))) w_zero16 = Ok tt
    /\ 1 <= v <= 2 ^ 32 - 1
    /\ w_stdout (exec (do_main (random_opts (-8))) w_zero16)
       = w_stdout w_zero16 ++ diag ++ [OutText (line +:+ newline)]
    /\ hex_string_32bit line = Ok v
    /\ contents test_zero_bin (exec (do_main (random_opts (-8))) w_zero16)
       = Some data'
    /\ from_bytes (read_at data' 8 4) = v.
Proof.
  apply (random_insert_prints_what_it_wrote (random_opts (-8)) w_zero16 (-8)
           (zeros 16));
    [reflexivity | reflexivity | lia | reflexivity | vm_compute; discriminate].
Defined.

(** ** Usage errors *)

Lemma hex_string_32bit_raises s e : hex_string_32bit s = Raise e -> e = ValueError.
Proof.
  unfold hex_string_32bit. destruct (Nat.ltb 8 (String.length s)).
  - intros [= <-]. reflexivity.
  - apply py_int_raises.
Qed.

Lemma convert_cases {A} (f : string -> result A) arg :
  (forall s e, f s = Raise e -> e = ValueError) ->
  (exists v, convert f arg = Ok v
             /\ forall s, arg = Some s -> f s <> Raise ValueError)
  \/ (convert f arg = Raise (SystemExit 2)
      /\ exists s, arg = Some s /\ f s = Raise ValueError).
Proof.
  intros Honly. destruct arg as [s|]; simpl.
  - destruct (f s) as [v|e] eqn:Hf.
    + left. eexists. split; [reflexivity|]. intros s' [= <-]. congruence.
    + apply Honly in Hf as He. subst e. right. eauto.
  - left. eexists. split; [reflexivity|]. intros s [=].
Qed.

(** Whenever the value given with [--insert-random-at], [--insert] or
    [--position] is refused by the option's type, the program ends with a
    usage error (status 2) while the command line is parsed: it has opened
    no file, changed none and written nothing to standard output, whatever
    the other options say and whether or not the file exists. (The command
    line is one that names a file and asks for no help.) *)
Theorem refused_option_value_is_usage_error c w :
  malformed c ->
  outcome (main c) w = Raise (SystemExit 2)
  /\ w_log (exec (main c) w) = w_log w
  /\ w_fs (exec (main c) w) = w_fs w
  /\ w_stdout (exec (main c) w) = w_stdout w.
Proof.
  unfold malformed, outcome, exec, main, parse_args, bind, lift, ret.
  destruct (convert_cases (fun s => py_int s 10) (c_index_random c)
              (fun s => py_int_raises s 10))
    as [(ir & -> & Hir) | (-> & Hir)]; [|simpl; auto].
  destruct (convert_cases hex_string_32bit (c_insert c) hex_string_32bit_raises)
    as [(ins & -> & Hins) | (-> & Hins)]; [|simpl; auto].
  destruct (convert_cases (fun s => py_int s 10) (c_position c)
              (fun s => py_int_raises s 10))
    as [(pos & -> & Hpos) | (-> & Hpos)]; [|simpl; auto].
  intros [(s & Hs & Hf) | [(s & Hs & Hf) | (s & Hs & Hf)]]; exfalso.
  - exact (Hir s Hs Hf).
  - exact (Hins s Hs Hf).
  - exact (Hpos s Hs Hf).
Qed.

(** [crc32.py -c --position 0x10 test-zero.bin]. *)
Lemma refused_option_value_is_usage_error_witness :
  outcome (main (Cmdline test_zero_bin false true None false None (Some "0x10")))
    w_zero16
  = Raise (SystemExit 2)
  /\ w_log (exec (main (Cmdline test_zero_bin false true None false None
                          (Some "0x10"))) w_zero16) = w_log w_zero16
  /\ w_fs (exec (main (Cmdline test_zero_bin false true None false None
                         (Some "0x10"))) w_zero16) = w_fs w_zero16
  /\ w_stdout (exec (main (Cmdline test_zero_bin false true None false None
                             (Some "0x10"))) w_zero16) = w_stdout w_zero16.
Proof.
  apply (refused_option_value_is_usage_error
           (Cmdline test_zero_bin false true None false None (Some "0x10"))
           w_zero16).
  right. right. exists "0x10"%string. split; reflexivity.
Defined.

(** ** The checksum as a function of four bytes of the file *)

Section CrcWindow.

Import Zlib.

Lemma lxor_range_bits a b n :
  0 <= n -> 0 <= a < 2 ^ n -> 0 <= b < 2 ^ n -> 0 <= Z.lxor a b < 2 ^ n.
Proof.
  intros Hn Ha Hb.
  assert (Hnn : 0 <= Z.lxor a b) by (apply Z.lxor_nonneg; lia).
  split; [exact Hnn|].
  destruct (Z.eq_dec n 0) as [->|Hn0].
  { change (2 ^ 0) with 1 in *. assert (a = 0) by lia. assert (b = 0) by lia.
    subst. rewrite Z.lxor_0_l. lia. }
  destruct (Z.eq_dec (Z.lxor a b) 0) as [->|Hne];
    [apply Z.pow_pos_nonneg; lia|].
  apply Z.log2_lt_pow2; [lia|].
  pose proof (Z.log2_lxor a b ltac:(lia) ltac:(lia)) as Hl.
  assert (Z.log2 a < n).
  { destruct (Z.eq_dec a 0) as [->|]; [simpl; lia|]. apply Z.log2_lt_pow2; lia. }
  assert (Z.log2 b < n).
  { destruct (Z.eq_dec b 0) as [->|]; [simpl; lia|]. apply Z.log2_lt_pow2; lia. }
  lia.
Qed.

Lemma crc_shift_range c : 0 <= c < 2 ^ 32 -> 0 <= crc_shift c < 2 ^ 32.
Proof.
  intros Hc. unfold crc_shift.
  pose proof (shiftr_range32 c 1 ltac:(lia) Hc).
  destruct (Z.testbit c 0); [|assumption].
  apply lxor_range32; [unfold POLY; lia | assumption].
Qed.

Lemma crc_shift_inj a b :
  0 <= a < 2 ^ 32 -> 0 <= b < 2 ^ 32 -> crc_shift a = crc_shift b -> a = b.
Proof.
  intros Ha Hb Heq.
  assert (Hhigh : forall c, 0 <= c < 2 ^ 32 ->
             Z.testbit (crc_shift c) 31 = Z.testbit c 0).
  { intros c Hc. unfold crc_shift.
    assert (Hs : Z.testbit (Z.shiftr c 1) 31 = false).
    { rewrite Z.shiftr_spec by lia. apply Z.bits_above_log2; [lia|].
      destruct (Z.eq_dec c 0) as [->|]; [simpl; lia|].
      apply Z.log2_lt_pow2; lia. }
    destruct (Z.testbit c 0); [|exact Hs].
    rewrite Z.lxor_spec, Hs. reflexivity. }
  assert (Hbit : Z.testbit a 0 = Z.testbit b 0).
  { rewrite <- (Hhigh a Ha), <- (Hhigh b Hb), Heq. reflexivity. }
  unfold crc_shift in Heq. rewrite Hbit in Heq.
  assert (Hrest : Z.shiftr a 1 = Z.shiftr b 1).
  { destruct (Z.testbit b 0); [|exact Heq].
    apply (f_equal (Z.lxor POLY)) in Heq.
    rewrite <- !Z.lxor_assoc, Z.lxor_nilpotent, !Z.lxor_0_l in Heq. exact Heq. }
  apply Z.bits_inj'. intros n Hn.
  destruct (Z.eq_dec n 0) as [->|Hn0]; [exact Hbit|].
  replace n with (n - 1 + 1) by lia.
  rewrite <- !Z.shiftr_spec by lia. rewrite Hrest. reflexivity.
Qed.

Lemma iter_crc_shift_range k c :
  0 <= c < 2 ^ 32 -> 0 <= Nat.iter k crc_shift c < 2 ^ 32.
Proof.
  induction k as [|k IH]; intros Hc; simpl; [exact Hc|].
  apply crc_shift_range. apply IH. exact Hc.
Qed.

Lemma iter_crc_shift_inj k a b :
  0 <= a < 2 ^ 32 -> 0 <= b < 2 ^ 32 ->
  Nat.iter k crc_shift a = Nat.iter k crc_shift b -> a = b.
Proof.
  intros Ha Hb. induction k as [|k IH]; simpl; [auto|].
  intros Heq. apply IH. apply crc_shift_inj; auto using iter_crc_shift_range.
Qed.

Lemma crc_byte_iter c b :
  crc_byte c b = Nat.iter 8 crc_shift (Z.lxor c (byte_Z b)).
Proof.
  rewrite crc_byte_divide_byte. unfold Standard.divide_byte. simpl.
  rewrite !crc_shift_divide_bit. reflexivity.
Qed.

(** Folding bytes into the running value is shifting the value with the
    bytes laid over its low end. *)
Lemma fold_crc_byte_word l : forall s,
  fold_left crc_byte l s
  = Nat.iter (8 * length l) crc_shift (Z.lxor s (le_word l)).
Proof.
  induction l as [|b l IH]; intros s.
  - simpl. rewrite Z.lxor_0_r. reflexivity.
  - cbn [fold_left]. rewrite IH, crc_byte_iter.
    replace (8 * length (b :: l))%nat with (8 * length l + 8)%nat by (simpl; lia).
    rewrite Nat.iter_add. f_equal.
    cbn [le_word fold_right]. fold (le_word l).
    rewrite <- (iter_crc_shift_shiftl 8 (le_word l)) at 1.
    rewrite <- iter_crc_shift_lxor. f_equal.
    change (Z.of_nat 8) with 8. rewrite Z.lxor_assoc. reflexivity.
Qed.

Lemma le_word_range l : 0 <= le_word l < 2 ^ (8 * Z.of_nat (length l)).
Proof.
  induction l as [|b l IH]; [simpl; lia|].
  cbn [le_word fold_right]. fold (le_word l).
  replace (8 * Z.of_nat (length (b :: l))) with (8 + 8 * Z.of_nat (length l))
    by (simpl; lia).
  pose proof (byte_Z_range b) as Hb.
  assert (Hpos : 0 < 2 ^ (8 * Z.of_nat (length l)))
    by (apply Z.pow_pos_nonneg; lia).
  apply lxor_range_bits; [lia | |].
  - rewrite Z.pow_add_r by lia. change (2 ^ 8) with 256. nia.
  - rewrite Z.shiftl_mul_pow2 by lia. rewrite Z.pow_add_r by lia.
    change (2 ^ 8) with 256. nia.
Qed.

Lemma le_word_cons b l :
  Z.land (le_word (b :: l)) 255 = byte_Z b
  /\ Z.shiftr (le_word (b :: l)) 8 = le_word l.
Proof.
  cbn [le_word fold_right]. fold (le_word l).
  pose proof (byte_Z_range b) as Hb. split.
  - apply Z.bits_inj'. intros n Hn. rewrite Z.land_spec, Z.lxor_spec.
    change 255 with (Z.ones 8).
    destruct (Z.lt_ge_cases n 8) as [Hlt|Hge].
    + rewrite Z.ones_spec_low by lia. rewrite Z.shiftl_spec_low by lia.
      rewrite xorb_false_r, andb_true_r. reflexivity.
    + rewrite Z.ones_spec_high by lia. rewrite andb_false_r.
      symmetry. apply Z.bits_above_log2; [lia|].
      destruct (Z.eq_dec (byte_Z b) 0) as [->|]; [simpl; lia|].
      apply Z.log2_lt_pow2; [lia|].
      apply Z.lt_le_trans with (2 ^ 8); [simpl; lia|].
      apply Z.pow_le_mono_r; lia.
  - rewrite Z.shiftr_lxor, shiftr_byte, Z.lxor_0_l.
    rewrite Z.shiftr_shiftl_l by lia. apply Z.shiftl_0_r.
Qed.

Lemma byte_Z_inj a b : byte_Z a = byte_Z b -> a = b.
Proof.
  unfold byte_Z. intros H. apply N2Z.inj in H.
  apply (f_equal Byte.of_N) in H. rewrite !Byte.of_to_N in H. congruence.
Qed.

Lemma le_word_inj l1 : forall l2,
  length l1 = length l2 -> le_word l1 = le_word l2 -> l1 = l2.
Proof.
  induction l1 as [|a l1 IH]; intros [|b l2] Hlen Heq; try discriminate;
    [reflexivity|].
  destruct (le_word_cons a l1) as [Ha Hl1].
  destruct (le_word_cons b l2) as [Hb Hl2].
  f_equal.
  - apply byte_Z_inj. rewrite <- Ha, <- Hb, Heq. reflexivity.
  - apply IH; [simpl in Hlen; lia|]. rewrite <- Hl1, <- Hl2, Heq. reflexivity.
Qed.

(** The running value after four bytes determines the four bytes. *)
Lemma fold_crc_byte_four_inj s l1 l2 :
  0 <= s < 2 ^ 32 ->
  length l1 = 4%nat -> length l2 = 4%nat ->
  fold_left crc_byte l1 s = fold_left crc_byte l2 s -> l1 = l2.
Proof.
  intros Hs H1 H2 Heq. rewrite !fold_crc_byte_word, H1, H2 in Heq.
  pose proof (le_word_range l1) as R1. pose proof (le_word_range l2) as R2.
  rewrite H1 in R1. rewrite H2 in R2.
  change (2 ^ (8 * Z.of_nat 4)) with (2 ^ 32) in *.
  apply iter_crc_shift_inj in Heq; try (apply lxor_range32; assumption).
  apply le_word_inj; [congruence|].
  apply (f_equal (Z.lxor s)) in Heq.
  rewrite <- !Z.lxor_assoc, Z.lxor_nilpotent, !Z.lxor_0_l in Heq. exact Heq.
Qed.

(** The running value after a run of bytes determines the value before. *)
Lemma fold_crc_byte_inj l : forall s1 s2,
  0 <= s1 < 2 ^ 32 -> 0 <= s2 < 2 ^ 32 ->
  fold_left crc_byte l s1 = fold_left crc_byte l s2 -> s1 = s2.
Proof.
  induction l as [|b l IH]; intros s1 s2 H1 H2 Heq; [exact Heq|].
  cbn [fold_left] in Heq. apply IH in Heq; try (apply crc_byte_range; assumption).
  rewrite !crc_byte_iter in Heq. pose proof (byte_Z_range b) as Hb.
  apply iter_crc_shift_inj in Heq;
    try (apply lxor_range32; [assumption | lia]).
  apply (f_equal (fun x => Z.lxor x (byte_Z b))) in Heq.
  rewrite !lxor_twice in Heq. exact Heq.
Qed.

Lemma crc32_window_inj pre l1 l2 post :
  length l1 = 4%nat -> length l2 = 4%nat ->
  Standard.crc32 (pre ++ l1 ++ post) = Standard.crc32 (pre ++ l2 ++ post) ->
  l1 = l2.
Proof.
  intros H1 H2. rewrite <- !crc32_standard. unfold Zlib.crc32.
  intros Heq. apply (f_equal (fun x => Z.lxor x MASK32)) in Heq.
  rewrite !lxor_twice in Heq. rewrite !fold_left_app in Heq.
  set (s := fold_left crc_byte pre (Z.lxor (Z.land 0 MASK32) MASK32)) in *.
  assert (Hs : 0 <= s < 2 ^ 32).
  { apply fold_crc_byte_range. apply lxor_range32;
      [apply land_mask32_range | apply mask32_range]. }
  apply fold_crc_byte_inj in Heq; try (apply fold_crc_byte_range; exact Hs).
  apply (fold_crc_byte_four_inj s); assumption.
Qed.

End CrcWindow.

(** Two different 32-bit values patched in at the same place of the same
    file give two different checksums: with the rest of the file fixed,
    the CRC-32 determines the four bytes. *)
Theorem different_values_different_checksums name verbose v1 v2 p w data :
  contents name w = Some data ->
  0 <= v1 < 2 ^ 32 ->
  0 <= v2 < 2 ^ 32 ->
  0 <= resolve p (length data) ->
  v1 <> v2 ->
  exists c1 c2,
    outcome (crc32 name 65536) (exec (patch_file name verbose v1 p) w) = Ok c1
    /\ outcome (crc32 name 65536) (exec (patch_file name verbose v2 p) w) = Ok c2
    /\ c1 <> c2.
Proof.
  unfold contents. intros Hdata H1 H2 Hres Hne.
  set (off := Z.to_nat (resolve p (length data))).
  assert (Hrun : forall v, 0 <= v < 2 ^ 32 ->
             outcome (crc32 name 65536) (exec (patch_file name verbose v p) w)
             = Ok (Standard.crc32 (write_at data off (big_endian 4 v)))).
  { intros v Hv.
    assert (Hfs : w_fs (exec (patch_file name verbose v p) w) !! name
                  = Some (write_at data off (big_endian 4 v))).
    { rewrite patch_file_fs, Hdata, (to_bytes_32bit v Hv).
      destruct (resolve p (length data) <? 0) eqn:Hneg; [lia|].
      apply lookup_insert_eq. }
    destruct (crc32_spec name 65536 _ _ Hfs) as [evs [Hcrc _]]; [lia|].
    unfold outcome. rewrite Hcrc. reflexivity. }
  eexists _, _. split; [apply Hrun; exact H1|]. split; [apply Hrun; exact H2|].
  intros Heq. unfold write_at in Heq. rewrite !length_big_endian in Heq.
  apply crc32_window_inj in Heq; try apply length_big_endian.
  apply Hne. rewrite <- (from_bytes_big_endian v1 H1), <- (from_bytes_big_endian v2 H2).
  rewrite Heq. reflexivity.
Qed.

Lemma different_values_different_checksums_witness :
  exists c1 c2,
    outcome (crc32 test_zero_bin 65536)
      (exec (patch_file test_zero_bin false 0xCAFECAFE (-8)) w_zero16) = Ok c1
    /\ outcome (crc32 test_zero_bin 65536)
         (exec (patch_file test_zero_bin false 0xCAFECAFF (-8)) w_zero16) = Ok c2
    /\ c1 <> c2.
Proof.
  apply (different_values_different_checksums test_zero_bin false
           0xCAFECAFE 0xCAFECAFF (-8) w_zero16 (zeros 16));
    [reflexivity | lia | lia | vm_compute; discriminate | lia].
Defined.

(** ** Patches one after the other *)

Lemma write_at_over old pos d1 d2 :
  length d1 = length d2 ->
  write_at (write_at old pos d1) pos d2 = write_at old pos d2.
Proof.
  intros Hlen. unfold write_at at 1. rewrite padded_prefix_write_at.
  unfold write_at at 1.
  rewrite (app_assoc (padded_prefix old pos) d1 (drop (pos + length d1) old)).
  rewrite drop_app_length'
    by (rewrite length_app, length_padded_prefix; lia).
  rewrite Hlen. reflexivity.
Qed.

Lemma resolve_after_write p data off be :
  p <= -4 \/ 0 <= p ->
  off = Z.to_nat (resolve p (length data)) ->
  0 <= resolve p (length data) ->
  length be = 4%nat ->
  resolve p (length (write_at data off be)) = resolve p (length data).
Proof.
  intros Hp -> Hres Hlen. rewrite length_write_at, Hlen. unfold resolve in *.
  destruct (0 <=? p) eqn:Hnn; [reflexivity | lia].
Qed.

(** Of two patches at the same position (not -1, -2 or -3), the later one
    wins: the files are as if only the second had been made, whether or
    not the first succeeded. *)
Theorem later_patch_wins name verbose1 verbose2 v1 v2 p w :
  p <= -4 \/ 0 <= p ->
  0 <= v2 < 2 ^ 32 ->
  w_fs (exec (patch_file name verbose2 v2 p) (exec (patch_file name verbose1 v1 p) w))
  = w_fs (exec (patch_file name verbose2 v2 p) w).
Proof.
  intros Hp Hv2.
  rewrite (patch_file_fs name verbose2 v2 p (exec _ w)).
  rewrite (patch_file_fs name verbose1 v1 p w).
  rewrite (patch_file_fs name verbose2 v2 p w).
  rewrite (to_bytes_32bit v2 Hv2).
  destruct (w_fs w !! name) as [data|] eqn:Hdata; [|rewrite Hdata; reflexivity].
  destruct (to_bytes v1 4) as [be1|e] eqn:Hbe1; [|rewrite Hdata; reflexivity].
  destruct (resolve p (length data) <? 0) eqn:Hneg;
    [rewrite Hdata, Hneg; reflexivity|].
  rewrite lookup_insert_eq.
  rewrite (resolve_after_write p data _ be1 Hp eq_refl ltac:(lia)
             (to_bytes_length _ _ _ Hbe1)).
  rewrite Hneg, write_at_over
    by (rewrite (to_bytes_length _ _ _ Hbe1), length_big_endian; reflexivity).
  apply insert_insert_eq.
Qed.

Lemma later_patch_wins_witness :
  w_fs (exec (patch_file test_zero_bin false 0xCAFECAFE (-8))
          (exec (patch_file test_zero_bin true 0xDEADBEEF (-8)) w_zero16))
  = w_fs (exec (patch_file test_zero_bin false 0xCAFECAFE (-8)) w_zero16).
Proof.
  apply (later_patch_wins test_zero_bin true false 0xDEADBEEF 0xCAFECAFE (-8)
           w_zero16); lia.
Defined.

Lemma write_at_lookup_inside old pos d (i : nat) :
  (pos + length d <= length old)%nat ->
  write_at old pos d !! i
  = if decide (pos <= i < pos + length d)%nat then d !! (i - pos)%nat
    else old !! i.
Proof.
  intros Hin. case_decide as Hi.
  - unfold write_at.
    rewrite lookup_app_r by (rewrite length_padded_prefix; lia).
    rewrite length_padded_prefix. apply lookup_app_l. lia.
  - destruct (le_lt_dec (length old) i) as [Hout|Hlt].
    + rewrite !lookup_ge_None_2; [reflexivity | lia |].
      rewrite length_write_at. lia.
    + apply write_at_lookup_other; lia.
Qed.

Lemma write_at_commute old o1 d1 o2 d2 :
  (o1 + length d1 <= o2)%nat ->
  (o2 + length d2 <= length old)%nat ->
  write_at (write_at old o1 d1) o2 d2 = write_at (write_at old o2 d2) o1 d1.
Proof.
  intros H12 H2. apply list_eq. intros i.
  rewrite !write_at_lookup_inside by (rewrite ?length_write_at; lia).
  repeat case_decide; try reflexivity; lia.
Qed.

(** Two patches of four bytes that lie inside the file and do not overlap
    can be made in either order: the files end up the same. *)
Theorem disjoint_patches_commute name verbose v1 p1 v2 p2 w data :
  contents name w = Some data ->
  0 <= v1 < 2 ^ 32 ->
  0 <= v2 < 2 ^ 32 ->
  0 <= resolve p1 (length data) ->
  resolve p1 (length data) + 4 <= resolve p2 (length data) ->
  resolve p2 (length data) + 4 <= Z.of_nat (length data) ->
  w_fs (exec (patch_file name verbose v2 p2) (exec (patch_file name verbose v1 p1) w))
  = w_fs (exec (patch_file name verbose v1 p1) (exec (patch_file name verbose v2 p2) w)).
Proof.
  unfold contents. intros Hdata Hv1 Hv2 H1 H12 H2.
  assert (Hkeep : forall p v, 0 <= v < 2 ^ 32 ->
             0 <= resolve p (length data) ->
             resolve p (length data) + 4 <= Z.of_nat (length data) ->
             length (write_at data (Z.to_nat (resolve p (length data)))
                       (big_endian 4 v)) = length data).
  { intros p v Hv Hlo Hhi. rewrite length_write_at, length_big_endian. lia. }
  rewrite (patch_file_fs name verbose v2 p2 (exec _ w)).
  rewrite (patch_file_fs name verbose v1 p1 (exec _ w)).
  rewrite !(patch_file_fs name verbose _ _ w).
  rewrite Hdata, (to_bytes_32bit v1 Hv1), (to_bytes_32bit v2 Hv2).
  destruct (resolve p1 (length data) <? 0) eqn:Hn1; [lia|].
  destruct (resolve p2 (length data) <? 0) eqn:Hn2; [lia|].
  rewrite !lookup_insert_eq.
  rewrite (Hkeep p1 v1), (Hkeep p2 v2) by lia.
  rewrite Hn1, Hn2, !insert_insert_eq. f_equal.
  apply write_at_commute; rewrite ?length_big_endian; lia.
Qed.

Lemma disjoint_patches_commute_witness :
  w_fs (exec (patch_file test_zero_bin false 0xCAFECAFE (-8))
          (exec (patch_file test_zero_bin false 0xDEADBEEF 2) w_zero16))
  = w_fs (exec (patch_file test_zero_bin false 0xDEADBEEF 2)
            (exec (patch_file test_zero_bin false 0xCAFECAFE (-8)) w_zero16)).
Proof.
  apply (disjoint_patches_commute test_zero_bin false 0xDEADBEEF 2
           0xCAFECAFE (-8) w_zero16 (zeros 16));
    try reflexivity; try lia; vm_compute; discriminate.
Defined.

(** ** Writing back what is there *)

Lemma Z_byte_byte_Z z b : Z.land z 255 = byte_Z b -> Z_byte z = b.
Proof.
  intros H. unfold Z_byte. rewrite H. unfold byte_Z.
  rewrite N2Z.id, Byte.of_to_N. reflexivity.
Qed.

(** Encoding what four bytes decode to gives the four bytes. *)
Lemma big_endian_from_bytes b :
  length b = 4%nat ->
  0 <= from_bytes b < 2 ^ 32 /\ big_endian 4 (from_bytes b) = b.
Proof.
  intros Hlen.
  destruct b as [|b0 [|b1 [|b2 [|b3 [|? ?]]]]]; try discriminate.
  pose proof (byte_Z_range b0). pose proof (byte_Z_range b1).
  pose proof (byte_Z_range b2). pose proof (byte_Z_range b3).
  unfold from_bytes. cbn [fold_left].
  set (v := ((((0 * 256 + byte_Z b0) * 256 + byte_Z b1) * 256 + byte_Z b2) * 256
             + byte_Z b3)).
  assert (Hv : 0 <= v < 2 ^ 32) by (unfold v; lia).
  split; [exact Hv|].
  cbn [big_endian].
  change (8 * Z.of_nat 3) with 24. change (8 * Z.of_nat 2) with 16.
  change (8 * Z.of_nat 1) with 8. change (8 * Z.of_nat 0) with 0.
  repeat f_equal; apply Z_byte_byte_Z; change 255 with (Z.ones 8);
    rewrite Z.land_ones by lia; rewrite Z.shiftr_div_pow2 by lia;
    unfold v;
    [change (2 ^ 24) with 16777216 | change (2 ^ 16) with 65536
     | change (2 ^ 8) with 256 | change (2 ^ 0) with 1];
    change (2 ^ 8) with 256; Z.div_mod_to_equations; lia.
Qed.

Lemma write_at_read_at old pos n :
  (pos + n <= length old)%nat ->
  write_at old pos (read_at old pos n) = old.
Proof.
  intros Hin. unfold write_at, padded_prefix, read_at.
  rewrite length_take, length_drop.
  replace (pos - length old)%nat with 0%nat by lia.
  replace (Nat.min n (length old - pos)) with n by lia.
  change (replicate 0 x00) with (@nil byte). rewrite app_nil_r.
  rewrite <- (drop_drop old n pos).
  rewrite (take_drop n (drop pos old)). apply take_drop.
Qed.

(** Patching in the value the file already holds at that place changes
    nothing: the run succeeds and the contents are what they were. *)
Theorem patching_present_value_keeps_file name verbose p w data :
  contents name w = Some data ->
  0 <= resolve p (length data) ->
  resolve p (length data) + 4 <= Z.of_nat (length data) ->
  let v := from_bytes (read_at data (Z.to_nat (resolve p (length data))) 4) in
  outcome (patch_file name verbose v p) w = Ok tt
  /\ w_fs (exec (patch_file name verbose v p) w) = w_fs w.
Proof.
  unfold contents. intros Hdata Hlo Hhi. cbv zeta.
  set (off := Z.to_nat (resolve p (length data))) in *.
  assert (Hlen : length (read_at data off 4) = 4%nat).
  { unfold read_at. rewrite length_take, length_drop. lia. }
  destruct (big_endian_from_bytes _ Hlen) as [Hv Hback].
  set (v := from_bytes (read_at data off 4)) in *.
  unfold outcome, exec. rewrite patch_file_run, Hdata. cbn zeta.
  destruct (resolve p (length data) <? 0) eqn:Hneg; [lia|].
  rewrite (to_bytes_32bit v Hv). cbn [fst snd w_fs].
  split; [reflexivity|]. fold off. rewrite Hback.
  rewrite write_at_read_at by lia. apply insert_id. exact Hdata.
Qed.

Lemma patching_present_value_keeps_file_witness :
  outcome (patch_file test_zero_bin false
             (from_bytes (read_at (zeros 16) (Z.to_nat 8) 4)) (-8)) w_zero16
  = Ok tt
  /\ w_fs (exec (patch_file test_zero_bin false
                   (from_bytes (read_at (zeros 16) (Z.to_nat 8) 4)) (-8))
             w_zero16)
     = w_fs w_zero16.
Proof.
  apply (patching_present_value_keeps_file test_zero_bin false (-8) w_zero16
           (zeros 16));
    [reflexivity | vm_compute; discriminate | vm_compute; discriminate].
Defined.
